(** * Roblox player-count dashboard: the collection pipeline of [app.py]

    A shallow embedding of [src/app.py]: the [PlayerCountEntry] table, the
    retrying fetcher [fetch_and_save_data] and the two read views
    [get_summary] and [get_historical_data], followed by the properties the
    specification states about them.

    Conventions of the embedding.
    - A Python value obtained from [response.json()] is a [json] term; JSON
      objects are finite maps from strings (a Python [dict] with [str] keys).
      Numbers are integers: fractional JSON numbers are not represented.
    - A naive [datetime] is the number of microseconds elapsed since midnight
      of day one of the calendar, an integer; [timedelta] is a number of
      microseconds as well.
    - The clock of the world moves during [time.sleep] only; the time the
      other statements take is not represented.
    - The table is the list of its rows in insertion (rowid) order.
    - Statements that touch the outside world run in the monad [M]: a state
      monad over [world] that can also raise a Python exception. *)

From stdpp Require Import gmap strings list sorting.
From Stdlib Require Import ZArith Lia Ascii.

Open Scope Z_scope.

(** ** Python values decoded from JSON *)

#[warnings="-register-all"]
Inductive json : Type :=
| JNull
| JBool (b : bool)
| JNum (n : Z)
| JStr (s : string)
| JArr (l : list json)
| JObj (m : gmap string json).

(** Exceptions the modelled statements can raise.  The first three are
    subclasses of [requests.exceptions.RequestException]. *)
Inductive exn : Type :=
| ConnectionError            (* also Timeout: no response was obtained *)
| HTTPError (status : Z)     (* raised by [raise_for_status] *)
| JSONDecodeError            (* the body is not a JSON document *)
| AttributeError
| TypeError
| KeyError
| IndexError
| OverflowError
| IntegrityError             (* NOT NULL constraint of [player_count] *)
| InterfaceError.            (* a value the database driver cannot bind *)

Definition is_RequestException (e : exn) : bool :=
  match e with
  | ConnectionError | HTTPError _ | JSONDecodeError => true
  | _ => false
  end.

Module Py.

(** [bool(v)] *)
Definition truthy (v : json) : bool :=
  match v with
  | JNull => false
  | JBool b => b
  | JNum n => negb (n =? 0)
  | JStr s => negb (String.eqb s "")
  | JArr l => match l with [] => false | _ :: _ => true end
  | JObj m => negb (bool_decide (m = ∅))
  end.

(** [d.get(key)] and [d.get(key, default)]: only a [dict] has [get]. *)
Definition get (d : json) (key : string) (otherwise : json) : exn + json :=
  match d with
  | JObj m => inr (default otherwise (m !! key))
  | _ => inl AttributeError
  end.

(** [len(v)] *)
Definition len (v : json) : exn + Z :=
  match v with
  | JStr s => inr (Z.of_nat (String.length s))
  | JArr l => inr (Z.of_nat (length l))
  | JObj m => inr (Z.of_nat (size m))
  | _ => inl TypeError
  end.

(** [d[key]] with a [str] key *)
Definition getitem (d : json) (key : string) : exn + json :=
  match d with
  | JObj m => match m !! key with Some v => inr v | None => inl KeyError end
  | _ => inl TypeError
  end.

(** [v[0]] *)
Definition getitem0 (v : json) : exn + json :=
  match v with
  | JArr (x :: _) => inr x
  | JArr [] => inl IndexError
  | JStr (String c _) => inr (JStr (String c ""))
  | JStr EmptyString => inl IndexError
  | JObj _ => inl KeyError      (* the keys of a decoded object are strings *)
  | _ => inl TypeError
  end.

End Py.

(** ** [datetime] and [timedelta] *)

Module datetime.

Definition SECOND : Z := 1000000.
Definition MINUTE : Z := 60 * SECOND.
Definition HOUR : Z := 60 * MINUTE.
Definition DAY : Z := 24 * HOUR.

(** [timedelta(hours=h)] *)
Definition hours (h : Z) : Z := h * HOUR.

Definition hour (t : Z) : Z := (t / HOUR) mod 24.
Definition minute (t : Z) : Z := (t / MINUTE) mod 60.

(** The decimal digit [d] as a character. *)
Definition digit (d : Z) : ascii := ascii_of_nat (48 + Z.to_nat d).

(** The [%H] and [%M] directives: two decimal digits, zero-padded. *)
Definition two_digits (n : Z) : string :=
  String (digit (n / 10)) (String (digit (n mod 10)) "").

(** [t.strftime('%H:%M')] *)
Definition strftime_HM (t : Z) : string :=
  two_digits (hour t) +:+ ":" +:+ two_digits (minute t).

End datetime.

(** ** The database table *)

(** A row of the table behind [class PlayerCountEntry(db.Model)]. *)
Record PlayerCountEntry : Type := Entry {
  id : Z;               (* db.Integer, primary_key=True *)
  timestamp : Z;        (* db.DateTime, default=datetime.utcnow *)
  player_count : Z      (* db.Integer, nullable=False *)
}.

Module Query.

(** [.filter(PlayerCountEntry.timestamp >= since)] *)
Definition filter_since (since : Z) (rows : list PlayerCountEntry)
  : list PlayerCountEntry :=
  filter (λ e, since ≤ timestamp e) rows.

(** The two orderings of [order_by]. *)
Definition timestamp_asc (a b : PlayerCountEntry) : Prop :=
  timestamp a ≤ timestamp b.
Definition timestamp_desc (a b : PlayerCountEntry) : Prop :=
  timestamp b ≤ timestamp a.

#[global] Instance timestamp_asc_dec : RelDecision timestamp_asc :=
  λ a b, Z_le_dec (timestamp a) (timestamp b).
#[global] Instance timestamp_desc_dec : RelDecision timestamp_desc :=
  λ a b, Z_le_dec (timestamp b) (timestamp a).

(** [.order_by(PlayerCountEntry.timestamp.asc())] and [.desc()]: SQL leaves
    the relative order of rows with equal timestamps open; here it is the
    one the merge sort produces. *)
Definition order_by_asc (rows : list PlayerCountEntry) : list PlayerCountEntry :=
  merge_sort timestamp_asc rows.
Definition order_by_desc (rows : list PlayerCountEntry) : list PlayerCountEntry :=
  merge_sort timestamp_desc rows.

(** [.first()]: the first row, or [None]. *)
Definition first (rows : list PlayerCountEntry) : option PlayerCountEntry :=
  head rows.

(** [db.func.max(...)] followed by [.scalar()]: SQL [max] of no rows is
    [NULL]. *)
Definition scalar_max (values : list Z) : option Z :=
  match values with
  | [] => None
  | v :: rest => Some (foldr Z.max v rest)
  end.

(** The next value of the integer primary key. *)
Definition next_id (rows : list PlayerCountEntry) : Z :=
  foldr Z.max 0 (id <$> rows) + 1.

(** What is written to the [Integer] column for a Python value, or the
    exception the INSERT raises.  A Python [bool] is an [int].  The column
    only ever holds integers in this embedding: text, which SQLite's loose
    typing would keep as it is, is refused like the unbindable values. *)
Definition bind_integer (v : json) : exn + Z :=
  match v with
  | JNum n =>
      if bool_decide (- 2 ^ 63 ≤ n < 2 ^ 63) then inr n else inl OverflowError
  | JBool b => inr (if b then 1 else 0)
  | JNull => inl IntegrityError
  | JStr _ | JArr _ | JObj _ => inl InterfaceError
  end.

End Query.

(** ** HTTP *)

(** What [requests.get] hands back: a status code and the body, [None] when
    the body is not a JSON document. *)
Record Response : Type := mkResponse {
  status_code : Z;
  body : option json
}.

(** The upstream's answer to one GET: a response, or no response at all
    (connection failure, timeout). *)
Inductive reply : Type :=
| Answer (r : Response)
| NoAnswer.

(** [response.raise_for_status()]: an exception for 4xx and 5xx only. *)
Definition raise_for_status (r : Response) : exn + unit :=
  if bool_decide (400 ≤ status_code r < 600)
  then inl (HTTPError (status_code r))
  else inr tt.

(** [response.json()] *)
Definition response_json (r : Response) : exn + json :=
  match body r with
  | Some v => inr v
  | None => inl JSONDecodeError
  end.

(** ** The world a tick runs in *)

(** Lines written by [print]. *)
Inductive message : Type :=
| Attempting
| Success (player_count : json)
| WarningUnexpectedStructure
| RateLimitHit (attempt max_retries delay : Z)
| ErrorFetchFailed (e : exn)
| UnexpectedError (e : exn).

Record world : Type := World {
  table : list PlayerCountEntry;   (* rows of the table, in insertion order *)
  utcnow : Z;                      (* the clock *)
  requests_sent : nat;             (* GET requests issued so far *)
  slept : list Z;                  (* arguments of [time.sleep], in order *)
  stdout : list message
}.

(** The upstream: its answer to the [n]-th GET request. *)
Definition upstream : Type := nat → reply.

Definition M (A : Type) : Type := world → (exn + A) * world.

Definition ret {A} (a : A) : M A := λ w, (inr a, w).
Definition raise {A} (e : exn) : M A := λ w, (inl e, w).
Definition bind {A B} (c : M A) (k : A → M B) : M B :=
  λ w, match c w with
       | (inr a, w') => k a w'
       | (inl e, w') => (inl e, w')
       end.
(** A pure Python expression that may raise. *)
Definition lift {A} (r : exn + A) : M A := λ w, (r, w).
(** [try: body except Exception as e: handler(e)] *)
Definition try_except {A} (body : M A) (handler : exn → M A) : M A :=
  λ w, match body w with
       | (inr a, w') => (inr a, w')
       | (inl e, w') => handler e w'
       end.

Declare Scope py_scope.
Delimit Scope py_scope with py.
Notation "'let!' x ':=' c 'in' k" := (bind c (λ x, k))
  (at level 10, x name, c at level 100, k at level 200) : py_scope.
Notation "c '>>' k" := (bind c (λ _, k))
  (at level 90, right associativity) : py_scope.
Open Scope py_scope.

(** [print(...)] *)
Definition print (m : message) : M unit :=
  λ w, (inr tt, World (table w) (utcnow w) (requests_sent w) (slept w)
                      (stdout w ++ [m])).

(** [time.sleep(delay)]: recorded, and the clock moves on. *)
Definition sleep (delay : Z) : M unit :=
  λ w, (inr tt, World (table w) (utcnow w + delay * datetime.SECOND)
                      (requests_sent w) (slept w ++ [delay]) (stdout w)).

(** [requests.get(ROBLOX_API_URL, timeout=10)] *)
Definition requests_get (net : upstream) : M Response :=
  λ w, let w' := World (table w) (utcnow w) (S (requests_sent w)) (slept w)
                       (stdout w) in
       match net (requests_sent w) with
       | Answer r => (inr r, w')
       | NoAnswer => (inl ConnectionError, w')
       end.

(** [db.session.add(PlayerCountEntry(player_count=v)); db.session.commit()]:
    one row is appended, stamped with the clock, unless the INSERT raises. *)
Definition add_and_commit (v : json) : M unit :=
  λ w, match Query.bind_integer v with
       | inr n =>
           (inr tt, World (table w ++ [Entry (Query.next_id (table w)) (utcnow w) n])
                          (utcnow w) (requests_sent w) (slept w) (stdout w))
       | inl e => (inl e, w)
       end.

(** ** The fetcher *)

Definition ROBLOX_UNIVERSE_ID : Z := 920587237.
Definition GAME_NAME : string := "Adopt Me! (ตัวอย่าง)".

Definition max_retries : Z := 3.
Definition initial_delay : Z := 1.

(** How one pass through a loop body ends: it falls through to the next
    iteration, or the enclosing function returns. *)
Inductive flow (A : Type) : Type :=
| Continue
| Return (v : A).
Arguments Continue {A}.
Arguments Return {A} v.

(** [for i in range: body] *)
Fixpoint for_in {A} (range : list Z) (body : Z → M (flow A)) : M (flow A) :=
  match range with
  | [] => ret Continue
  | i :: rest =>
      let! f := body i in
      match f with
      | Return v => ret (Return v)
      | Continue => for_in rest body
      end
  end.

(** [range(n)] *)
Definition range (n : Z) : list Z := seqZ 0 n.

(** The condition [data.get('data') and len(data['data']) > 0]. *)
Definition has_records (data : json) : M bool :=
  let! d := lift (Py.get data "data" JNull) in
  if Py.truthy d then
    let! d' := lift (Py.getitem data "data") in
    let! n := lift (Py.len d') in
    ret (bool_decide (0 < n))
  else ret false.

(** The body of the retry loop (lines 45-73). *)
Definition attempt_body (net : upstream) (attempt : Z) : M (flow (option json)) :=
  let! response := requests_get net in
  if bool_decide (status_code response = 200) then
    let! data := lift (response_json response) in
    let! ok := has_records data in
    if ok then
      let! records := lift (Py.getitem data "data") in
      let! game_data := lift (Py.getitem0 records) in
      let! player_count := lift (Py.get game_data "playing" (JNum 0)) in
      add_and_commit player_count >>
      print (Success player_count) >>
      ret (Return (Some player_count))
    else
      print WarningUnexpectedStructure >>
      ret (Return None)
  else if bool_decide (status_code response = 429) then
    let delay := initial_delay * 2 ^ attempt in
    print (RateLimitHit (attempt + 1) max_retries delay) >>
    sleep delay >>
    ret Continue
  else
    lift (raise_for_status response) >>
    ret Continue.

(** [fetch_and_save_data()]: the value returned, [None] for Python's [None]. *)
Definition fetch_and_save_data (net : upstream) : M (option json) :=
  print Attempting >>
  try_except
    (let! f := for_in (range max_retries) (attempt_body net) in
     match f with
     | Return v => ret v
     | Continue => ret None
     end)
    (λ e,
      (if is_RequestException e
       then print (ErrorFetchFailed e)
       else print (UnexpectedError e)) >>
      ret None).

(** [job_wrapper], the scheduled job: one tick. *)
Definition job_wrapper (net : upstream) : M (option json) :=
  fetch_and_save_data net.

(** The tables the scheduler can produce: [db.create_all()] makes an empty
    table, and every tick runs [job_wrapper] against some upstream, at some
    moment, whatever the rest of the world looks like. *)
Inductive reachable_under (P : upstream → Prop) : list PlayerCountEntry → Prop :=
| reach_create_all : reachable_under P []
| reach_tick net w :
    P net →
    reachable_under P (table w) →
    reachable_under P (table (job_wrapper net w).2).

Definition reachable : list PlayerCountEntry → Prop :=
  reachable_under (λ _, True).

(** ** The read views *)

Record summary : Type := Summary {
  game_name : string;
  current_players : Z;
  max_players_24h : Z
}.

Record historical : Type := Historical {
  labels : list string;
  data : list Z
}.

(** [x or 0] for an optional integer. *)
Definition or_0 (x : option Z) : Z :=
  match x with
  | Some v => if bool_decide (v = 0) then 0 else v
  | None => 0
  end.

(** The query of line 109. *)
Definition latest_entry (rows : list PlayerCountEntry) : option PlayerCountEntry :=
  Query.first (Query.order_by_desc rows).

(** [get_summary()], evaluated when the clock reads [now]. *)
Definition get_summary (now : Z) (rows : list PlayerCountEntry) : summary :=
  let current_players :=
    match latest_entry rows with
    | Some e => player_count e
    | None => 0
    end in
  let time_24_hours_ago := now - datetime.hours 24 in
  let max_entry_24h :=
    or_0 (Query.scalar_max
            (player_count <$> Query.filter_since time_24_hours_ago rows)) in
  Summary GAME_NAME current_players max_entry_24h.

(** The query of lines 131-133. *)
Definition entries_24h (now : Z) (rows : list PlayerCountEntry)
  : list PlayerCountEntry :=
  let time_24_hours_ago := now - datetime.hours 24 in
  Query.order_by_asc (Query.filter_since time_24_hours_ago rows).

(** [get_historical_data()], evaluated when the clock reads [now]. *)
Definition get_historical_data (now : Z) (rows : list PlayerCountEntry)
  : historical :=
  let entries := entries_24h now rows in
  foldl (λ acc entry,
           Historical (labels acc ++ [datetime.strftime_HM (timestamp entry)])
                      (data acc ++ [player_count entry]))
        (Historical [] []) entries.

(** ** Notions used by the statements below *)

(** The world after a rate-limited attempt numbered [attempt]. *)
Definition backed_off (w : world) (attempt : Z) : world :=
  let delay := initial_delay * 2 ^ attempt in
  World (table w) (utcnow w + delay * datetime.SECOND) (S (requests_sent w))
        (slept w ++ [delay])
        (stdout w ++ [RateLimitHit (attempt + 1) max_retries delay]).

(** The world after an attempt that only issued its request. *)
Definition requested (w : world) : world :=
  World (table w) (utcnow w) (S (requests_sent w)) (slept w) (stdout w).

(** The world once the opening line is printed. *)
Definition announced (w : world) : world :=
  World (table w) (utcnow w) (requests_sent w) (slept w) (stdout w ++ [Attempting]).

(** The world once an [except] clause has reported [e]. *)
Definition reported (e : exn) (w : world) : world :=
  World (table w) (utcnow w) (requests_sent w) (slept w)
        (stdout w ++ [if is_RequestException e then ErrorFetchFailed e
                      else UnexpectedError e]).

(** The upstream answers the [n]-th request with status [status]. *)
Definition answers_with (net : upstream) (n : nat) (status : Z) : Prop :=
  ∃ r, net n = Answer r ∧ status_code r = status.

(** An error status in the sense of [raise_for_status]. *)
Definition error_status (status : Z) : Prop := 400 ≤ status < 600.

(** A reply after which the loop goes on to its next attempt. *)
Definition goes_on (net : upstream) (n : nat) : Prop :=
  ∃ r, net n = Answer r ∧ status_code r ≠ 200 ∧
       (status_code r = 429 ∨ ¬ error_status (status_code r)).

(** Every ['playing'] value found in the first record of a body is a
    non-negative integer. *)
Definition counts_nonneg (v : json) : Prop :=
  ∀ m g rest c,
    v = JObj m →
    m !! "data" = Some (JArr (JObj g :: rest)) →
    g !! "playing" = Some c →
    ∃ n, c = JNum n ∧ 0 ≤ n.

Definition upstream_counts_nonneg (net : upstream) : Prop :=
  ∀ n r v, net n = Answer r → body r = Some v → counts_nonneg v.

(** Every row has a non-negative count. *)
Definition counts_ok (rows : list PlayerCountEntry) : Prop :=
  Forall (λ e, 0 ≤ player_count e) rows.

(** The body [{"data": [{"playing": v}]}]. *)
Definition body_playing (v : json) : json :=
  JObj {[ "data" := JArr [JObj {[ "playing" := v ]}] ]}.

(** The bodies [{"data": []}] and [{"data": [{"name": "Adopt Me!"}]}]. *)
Definition body_no_records : json :=
  JObj {[ "data" := JArr [] ]}.
Definition body_without_playing : json :=
  JObj {[ "data" := JArr [JObj {[ "name" := JStr "Adopt Me!" ]}] ]}.

(** An upstream that always answers 200 with the given body. *)
Definition always_200 (v : json) : upstream :=
  λ _, Answer (mkResponse 200 (Some v)).

(** An upstream that always answers with the given status and no JSON. *)
Definition always_status (status : Z) : upstream :=
  λ _, Answer (mkResponse status None).

(** An upstream that answers 204 without a body first, and 200 with a count
    of 10 from then on. *)
Definition no_content_then_ok : upstream :=
  λ n, match n with
       | O => Answer (mkResponse 204 None)
       | S _ => Answer (mkResponse 200 (Some (body_playing (JNum 10))))
       end.

(** An upstream that answers 429 first, and 500 from then on. *)
Definition rate_limit_then_500 : upstream :=
  λ n, match n with
       | O => Answer (mkResponse 429 None)
       | S _ => Answer (mkResponse 500 None)
       end.

(** A fresh process: empty table, clock at [now]. *)
Definition fresh (now : Z) : world := World [] now 0 [] [].

(** The three samples of the end-to-end scenario. *)
Definition scenario (t0 : Z) : list PlayerCountEntry :=
  [ Entry 1 t0 50;
    Entry 2 (t0 + datetime.hours 1) 70;
    Entry 3 (t0 + datetime.hours 25) 90 ].

(** The sum of a list of delays, in seconds. *)
Definition total (delays : list Z) : Z := foldr Z.add 0 delays.

(** The delays the attempts numbered in [range] sleep when rate-limited. *)
Definition delays_of (range : list Z) : list Z :=
  (λ attempt, initial_delay * 2 ^ attempt) <$> range.

(** An upstream that answers 429 first, and 200 with a count of 10 from then
    on. *)
Definition rate_limit_then_ok : upstream :=
  λ n, match n with
       | O => Answer (mkResponse 429 None)
       | S _ => Answer (mkResponse 200 (Some (body_playing (JNum 10))))
       end.

(** A reply with a status that is neither 200, nor 429, nor an error. *)
Definition passes_silently (net : upstream) (n : nat) : Prop :=
  ∃ r, net n = Answer r ∧ status_code r ≠ 200 ∧ status_code r ≠ 429 ∧
       ¬ error_status (status_code r).

(** An upstream that never answers. *)
Definition unreachable_host : upstream := λ _, NoAnswer.

(** The bodies [[1, 2]], [{"data": null}] and [{"data": [{"playing": null}]}]. *)
Definition body_array : json := JArr [JNum 1; JNum 2].
Definition body_null_data : json := JObj {[ "data" := JNull ]}.
Definition body_null_playing : json := body_playing JNull.

(** The [i]-th row inserted has primary key [i + 1]. *)
Definition ids_in_order (rows : list PlayerCountEntry) : Prop :=
  ∀ (i : nat) e, rows !! i = Some e → id e = Z.of_nat i + 1.

(** * Properties *)

(** ** Sample runs *)

Example run_ok :
  fetch_and_save_data (always_200 (body_playing (JNum 42))) (fresh 0)
  = (inr (Some (JNum 42)),
     World [Entry 1 0 42] 0 1 [] [Attempting; Success (JNum 42)]).
Proof. vm_compute. reflexivity. Qed.

Example summary_ex :
  get_summary 100 [Entry 1 0 5; Entry 2 10 3] = Summary GAME_NAME 3 5.
Proof. vm_compute. reflexivity. Qed.

Example historical_ex :
  get_historical_data (datetime.hours 30)
    [Entry 1 0 5; Entry 2 (datetime.hours 14 + 5 * datetime.MINUTE) 3;
     Entry 3 (datetime.hours 9) 8]
  = Historical ["09:00"; "14:05"] [8; 3].
Proof. vm_compute. reflexivity. Qed.

(** ** How one attempt ends *)

Section Attempt.
Context (net : upstream).

Lemma attempt_no_answer attempt w :
  net (requests_sent w) = NoAnswer →
  attempt_body net attempt w = (inl ConnectionError, requested w).
Proof. intros H. unfold attempt_body, bind, requests_get. by rewrite H. Qed.

Lemma attempt_429 attempt w :
  answers_with net (requests_sent w) 429 →
  attempt_body net attempt w = (inr Continue, backed_off w attempt).
Proof.
  intros (r & H & Hs). unfold attempt_body, bind, requests_get.
  rewrite H, Hs. done.
Qed.

Lemma attempt_error_status attempt w r :
  net (requests_sent w) = Answer r →
  error_status (status_code r) →
  status_code r ≠ 429 →
  attempt_body net attempt w = (inl (HTTPError (status_code r)), requested w).
Proof.
  unfold error_status. intros H Hr Hs.
  unfold attempt_body, bind, requests_get. rewrite H.
  rewrite !bool_decide_eq_false_2 by lia.
  unfold lift, raise_for_status. by rewrite bool_decide_eq_true_2.
Qed.

Lemma attempt_other_status attempt w r :
  net (requests_sent w) = Answer r →
  status_code r ≠ 200 →
  status_code r ≠ 429 →
  ¬ error_status (status_code r) →
  attempt_body net attempt w = (inr Continue, requested w).
Proof.
  intros H H2 H4 Hr. unfold attempt_body, bind, requests_get. rewrite H.
  rewrite !bool_decide_eq_false_2 by done.
  unfold lift, raise_for_status. by rewrite bool_decide_eq_false_2.
Qed.

(** An attempt after which the loop goes on leaves the table alone and
    has issued one request. *)
Lemma attempt_goes_on attempt w :
  goes_on net (requests_sent w) →
  ∃ w', attempt_body net attempt w = (inr Continue, w') ∧
        table w' = table w ∧ requests_sent w' = S (requests_sent w).
Proof.
  intros (r & H & H2 & Hc).
  destruct (decide (status_code r = 429)) as [H4|H4].
  - exists (backed_off w attempt). split; [|done].
    apply attempt_429. by exists r.
  - exists (requested w). split; [|done].
    apply attempt_other_status with r; try done. by destruct Hc.
Qed.

(** The function in terms of its loop. *)
Lemma fetch_and_save_data_loop w :
  fetch_and_save_data net w =
  match for_in (range max_retries) (attempt_body net) (announced w) with
  | (inr (Return v), w') => (inr v, w')
  | (inr Continue, w') => (inr None, w')
  | (inl e, w') => (inr None, reported e w')
  end.
Proof.
  unfold fetch_and_save_data.
  generalize (for_in (range max_retries) (attempt_body net)); intros loop.
  unfold bind, try_except, print, ret; simpl. fold (announced w).
  destruct (loop (announced w)) as [[e|[|v]] w']; try done.
  unfold reported. by destruct (is_RequestException e).
Qed.

(** A run of attempts that all go on. *)
Lemma for_in_goes_on (l rest : list Z) w :
  (∀ j, (j < length l)%nat → goes_on net (requests_sent w + j)%nat) →
  ∃ w', for_in (l ++ rest) (attempt_body net) w
        = for_in rest (attempt_body net) w' ∧
        table w' = table w ∧
        requests_sent w' = (requests_sent w + length l)%nat.
Proof.
  revert w. induction l as [|a l IH]; intros w Hl.
  - exists w. simpl. split_and!; [done|done|lia].
  - destruct (attempt_goes_on a w) as (w1 & Hb & Ht & Hn).
    { specialize (Hl 0%nat). rewrite Nat.add_0_r in Hl. apply Hl. simpl. lia. }
    destruct (IH w1) as (w2 & Hf & Ht2 & Hn2).
    { intros j Hj. rewrite Hn. replace (S (requests_sent w) + j)%nat
        with (requests_sent w + S j)%nat by lia. apply Hl. simpl. lia. }
    exists w2. split_and!.
    + simpl. unfold bind at 1. rewrite Hb. exact Hf.
    + congruence.
    + rewrite Hn2, Hn. simpl. lia.
Qed.

(** Whatever the upstream does, the call returns: both [except] clauses
    end the function normally. *)
Lemma fetch_and_save_data_returns w :
  ∃ v, (fetch_and_save_data net w).1 = inr v.
Proof.
  rewrite fetch_and_save_data_loop.
  destruct (for_in _ (attempt_body net) _) as [[e|[|v]] w']; eauto.
Qed.

End Attempt.

(** ** Rate limiting (C2) *)

(** C2, as the code behaves.  When the upstream answers 429 to three
    attempts in a row, [fetch_and_save_data] issues exactly three GET
    requests, returns [None] without raising and leaves the table as it was.
    It sleeps three times, for 1, 2 and 4 seconds: the third sleep follows the
    third attempt, and no request comes after it.  The claim allows only the
    sleeps of 1 and 2 seconds. *)
Theorem rate_limited_three_times net w :
  (∀ j, (j < 3)%nat → answers_with net (requests_sent w + j)%nat 429) →
  (fetch_and_save_data net w).1 = inr None ∧
  requests_sent (fetch_and_save_data net w).2 = (requests_sent w + 3)%nat ∧
  slept (fetch_and_save_data net w).2 = slept w ++ [1; 2; 4] ∧
  table (fetch_and_save_data net w).2 = table w.
Proof.
  intros H. rewrite fetch_and_save_data_loop.
  change (range max_retries) with [0; 1; 2].
  set (w1 := backed_off (announced w) 0).
  set (w2 := backed_off w1 1).
  assert (H0 : attempt_body net 0 (announced w) = (inr Continue, w1)).
  { apply attempt_429. specialize (H 0%nat). rewrite Nat.add_0_r in H.
    apply H. lia. }
  assert (H1 : attempt_body net 1 w1 = (inr Continue, w2)).
  { apply attempt_429. simpl. replace (S (requests_sent w)) with
      (requests_sent w + 1)%nat by lia. apply H. lia. }
  assert (H2 : attempt_body net 2 w2 = (inr Continue, backed_off w2 2)).
  { apply attempt_429. simpl. replace (S (S (requests_sent w))) with
      (requests_sent w + 2)%nat by lia. apply H. lia. }
  simpl for_in. unfold bind. rewrite H0, H1, H2. simpl.
  split_and!; [done|lia| |done].
  rewrite <- !app_assoc. done.
Qed.

Lemma rate_limited_three_times_witness :
  (fetch_and_save_data (always_status 429) (fresh 0)).1 = inr None ∧
  requests_sent (fetch_and_save_data (always_status 429) (fresh 0)).2 = 3%nat ∧
  slept (fetch_and_save_data (always_status 429) (fresh 0)).2 = [1; 2; 4] ∧
  table (fetch_and_save_data (always_status 429) (fresh 0)).2 = [].
Proof.
  apply (rate_limited_three_times (always_status 429) (fresh 0)).
  intros j _. eexists. split; reflexivity.
Defined.

(** ** Statuses other than 200 and 429 (C8) *)

(** C8 fails as stated.  A first answer of 204 is neither 200 nor 429, yet
    [raise_for_status] raises nothing for it: the loop makes a second attempt,
    and its 200 answer is written to the table. *)
Lemma no_content_is_retried :
  answers_with no_content_then_ok 0 204 ∧
  requests_sent (fetch_and_save_data no_content_then_ok (fresh 0)).2 = 2%nat ∧
  table (fetch_and_save_data no_content_then_ok (fresh 0)).2 = [Entry 1 0 10] ∧
  ¬ (requests_sent (fetch_and_save_data no_content_then_ok (fresh 0)).2 = 1%nat ∧
     table (fetch_and_save_data no_content_then_ok (fresh 0)).2 = table (fresh 0)).
Proof.
  split_and!.
  - eexists. split; reflexivity.
  - vm_compute. reflexivity.
  - vm_compute. reflexivity.
  - intros [H _]. vm_compute in H. discriminate.
Qed.

(** C8, amended.  When an attempt is answered with an error status (400 to
    599) other than 429, every earlier attempt of the run having let the loop
    go on, [fetch_and_save_data] makes no further attempt, leaves the table as
    it was and returns [None]: the exception of [raise_for_status] does not
    leave the function. *)
Theorem error_status_ends_tick net w (k : nat) r :
  (k < 3)%nat →
  (∀ j, (j < k)%nat → goes_on net (requests_sent w + j)%nat) →
  net (requests_sent w + k)%nat = Answer r →
  error_status (status_code r) →
  status_code r ≠ 429 →
  (fetch_and_save_data net w).1 = inr None ∧
  requests_sent (fetch_and_save_data net w).2 = (requests_sent w + k + 1)%nat ∧
  table (fetch_and_save_data net w).2 = table w.
Proof.
  intros Hk Hgo Hr He H4. rewrite fetch_and_save_data_loop.
  change (range max_retries) with [0; 1; 2].
  assert (Hsplit : ∃ pre a rest, [0; 1; 2] = pre ++ a :: rest ∧ length pre = k).
  { destruct k as [|[|[|k]]];
      [by exists [], 0, [1; 2]|by exists [0], 1, [2]|by exists [0; 1], 2, []|lia]. }
  destruct Hsplit as (pre & a & rest & -> & Hlen).
  destruct (for_in_goes_on net pre (a :: rest) (announced w))
    as (w' & -> & Ht & Hn).
  { rewrite Hlen. exact Hgo. }
  rewrite Hlen in Hn. simpl in Hn.
  simpl for_in. unfold bind.
  rewrite (attempt_error_status net a w' r) by (rewrite ?Hn; done).
  simpl. rewrite Ht, Hn. split_and!; [done|lia|done].
Qed.

Lemma error_status_ends_tick_witness :
  (fetch_and_save_data rate_limit_then_500 (fresh 0)).1 = inr None ∧
  requests_sent (fetch_and_save_data rate_limit_then_500 (fresh 0)).2 = 2%nat ∧
  table (fetch_and_save_data rate_limit_then_500 (fresh 0)).2 = [].
Proof.
  apply (error_status_ends_tick rate_limit_then_500 (fresh 0) 1
           (mkResponse 500 None)).
  - lia.
  - intros j Hj. assert (j = 0%nat) as -> by lia.
    exists (mkResponse 429 None). simpl. split_and!; [done|done|by left].
  - reflexivity.
  - unfold error_status. simpl. lia.
  - simpl. lia.
Defined.

(** ** Answers with status 200 (C1, C4) *)

Section Ok.
Context (net : upstream).

Lemma attempt_200_no_records attempt w r m :
  net (requests_sent w) = Answer r →
  status_code r = 200 →
  body r = Some (JObj m) →
  m !! "data" = Some (JArr []) →
  attempt_body net attempt w =
  (inr (Return None),
   World (table w) (utcnow w) (S (requests_sent w)) (slept w)
         (stdout w ++ [WarningUnexpectedStructure])).
Proof.
  intros H Hs Hb Hd. unfold attempt_body, bind at 1, requests_get.
  rewrite H, Hs. simpl.
  unfold bind, lift, response_json, has_records, bind, lift. rewrite Hb.
  simpl. rewrite Hd. done.
Qed.

Lemma attempt_200_first_record attempt w r m g rest :
  net (requests_sent w) = Answer r →
  status_code r = 200 →
  body r = Some (JObj m) →
  m !! "data" = Some (JArr (JObj g :: rest)) →
  attempt_body net attempt w =
  let count := default (JNum 0) (g !! "playing") in
  match Query.bind_integer count with
  | inr n =>
      (inr (Return (Some count)),
       World (table w ++ [Entry (Query.next_id (table w)) (utcnow w) n])
             (utcnow w) (S (requests_sent w)) (slept w)
             (stdout w ++ [Success count]))
  | inl e => (inl e, requested w)
  end.
Proof.
  intros H Hs Hb Hd. unfold attempt_body, bind at 1, requests_get.
  rewrite H, Hs. simpl.
  unfold bind, lift, response_json, has_records, bind, lift. rewrite Hb.
  simpl. rewrite Hd. simpl.
  unfold add_and_commit. simpl.
  by destruct (Query.bind_integer _).
Qed.

(** One attempt either leaves the table alone or appends one row, whose
    count is the first record's ['playing'] value, 0 when it has none. *)
Lemma attempt_table attempt w :
  table (attempt_body net attempt w).2 = table w ∨
  ∃ r m g rest n,
    net (requests_sent w) = Answer r ∧ body r = Some (JObj m) ∧
    m !! "data" = Some (JArr (JObj g :: rest)) ∧
    Query.bind_integer (default (JNum 0) (g !! "playing")) = inr n ∧
    table (attempt_body net attempt w).2 =
      table w ++ [Entry (Query.next_id (table w)) (utcnow w) n].
Proof.
  destruct (net (requests_sent w)) as [r|] eqn:H.
  2:{ left. by rewrite attempt_no_answer. }
  destruct (decide (status_code r = 200)) as [Hs|Hs].
  - destruct (body r) as [[| | | |l|m]|] eqn:Hb;
      try solve
        [ left; unfold attempt_body, bind at 1, requests_get;
          rewrite H, Hs; simpl;
          unfold bind, lift, response_json, has_records, bind, lift;
          rewrite Hb; done ].
    destruct (m !! "data") as [d|] eqn:Hd.
    2:{ left. unfold attempt_body, bind at 1, requests_get.
        rewrite H, Hs; simpl.
        unfold bind, lift, response_json, has_records, bind, lift.
        rewrite Hb; simpl. rewrite Hd. done. }
    destruct d as [|b|n|s|[|[| | | | |g] rest]|m'];
      try solve
        [ left; unfold attempt_body, bind at 1, requests_get;
          rewrite H, Hs; simpl;
          unfold bind, lift, response_json, has_records, bind, lift;
          rewrite Hb; simpl; rewrite Hd; simpl; try done;
          repeat (first [case_match | case_bool_decide];
                  unfold ret in *; simplify_eq/=; try done) ].
    pose proof (attempt_200_first_record attempt w r m g rest H Hs Hb Hd) as E.
    simpl in E. rewrite E.
    destruct (Query.bind_integer _) as [e|n] eqn:Hbind; [by left|].
    right. exists r, m, g, rest, n. done.
  - left. destruct (decide (status_code r = 429)) as [H4|H4].
    + rewrite (attempt_429 net attempt w); [done|by exists r].
    + destruct (decide (error_status (status_code r))).
      * by rewrite (attempt_error_status net attempt w r).
      * by rewrite (attempt_other_status net attempt w r).
Qed.

End Ok.

(** C1 fails as stated.  For a 200 answer whose first record has no
    ['playing'] field, [game_data.get('playing', 0)] yields 0, and a row with
    [player_count] 0 is written: the call returns 0, not [None]. *)
Lemma missing_playing_is_saved_as_zero :
  (fetch_and_save_data (always_200 body_without_playing) (fresh 0)).1
    = inr (Some (JNum 0)) ∧
  table (fetch_and_save_data (always_200 body_without_playing) (fresh 0)).2
    = [Entry 1 0 0] ∧
  ¬ ((fetch_and_save_data (always_200 body_without_playing) (fresh 0)).1
       = inr None ∧
     table (fetch_and_save_data (always_200 body_without_playing) (fresh 0)).2
       = table (fresh 0)).
Proof.
  split_and!.
  - vm_compute. reflexivity.
  - vm_compute. reflexivity.
  - intros [H _]. vm_compute in H. discriminate.
Qed.

(** C1, amended.  Take a 200 answer with a JSON object as its body, reached
    after any number of attempts that let the loop go on.  If its ['data']
    collection is empty, [fetch_and_save_data] returns [None] and leaves the
    table as it was.  If the first record is an object without ['playing'],
    the count defaults to 0: one row with [player_count] 0 is appended and 0
    is returned. *)
Theorem ok_answer_without_count net w (k : nat) r m :
  (k < 3)%nat →
  (∀ j, (j < k)%nat → goes_on net (requests_sent w + j)%nat) →
  net (requests_sent w + k)%nat = Answer r →
  status_code r = 200 →
  body r = Some (JObj m) →
  (m !! "data" = Some (JArr []) →
   (fetch_and_save_data net w).1 = inr None ∧
   table (fetch_and_save_data net w).2 = table w) ∧
  (∀ g rest,
     m !! "data" = Some (JArr (JObj g :: rest)) →
     g !! "playing" = None →
     (fetch_and_save_data net w).1 = inr (Some (JNum 0)) ∧
     ∃ t, table (fetch_and_save_data net w).2
          = table w ++ [Entry (Query.next_id (table w)) t 0]).
Proof.
  intros Hk Hgo Hr Hs Hb. rewrite fetch_and_save_data_loop.
  change (range max_retries) with [0; 1; 2].
  assert (Hsplit : ∃ pre a rest, [0; 1; 2] = pre ++ a :: rest ∧ length pre = k).
  { destruct k as [|[|[|k]]];
      [by exists [], 0, [1; 2]|by exists [0], 1, [2]|by exists [0; 1], 2, []|lia]. }
  destruct Hsplit as (pre & a & rest & -> & Hlen).
  destruct (for_in_goes_on net pre (a :: rest) (announced w))
    as (w' & -> & Ht & Hn).
  { rewrite Hlen. exact Hgo. }
  rewrite Hlen in Hn. simpl in Hn. rewrite <- Hn in Hr.
  simpl for_in. unfold bind. split.
  - intros Hd. rewrite (attempt_200_no_records net a w' r m) by done.
    simpl. done.
  - intros g rest' Hd Hg.
    rewrite (attempt_200_first_record net a w' r m g rest') by done.
    rewrite Hg. simpl. rewrite Ht. eauto.
Qed.

Lemma ok_answer_without_count_witness :
  ((fetch_and_save_data (always_200 body_no_records) (fresh 0)).1 = inr None ∧
   table (fetch_and_save_data (always_200 body_no_records) (fresh 0)).2 = []) ∧
  (fetch_and_save_data (always_200 body_without_playing) (fresh 0)).1
    = inr (Some (JNum 0)).
Proof.
  split.
  - apply (ok_answer_without_count (always_200 body_no_records) (fresh 0) 0
             (mkResponse 200 (Some body_no_records))
             ({[ "data" := JArr [] ]} : gmap string json)); try done; lia.
  - apply (ok_answer_without_count (always_200 body_without_playing) (fresh 0) 0
             (mkResponse 200 (Some body_without_playing))
             ({[ "data" := JArr [JObj {[ "name" := JStr "Adopt Me!" ]}] ]}
                : gmap string json)
             ltac:(lia) ltac:(lia) eq_refl eq_refl eq_refl)
      with (g := ({[ "name" := JStr "Adopt Me!" ]} : gmap string json))
           (rest := []); done.
Defined.

(** ** What the table can hold (C4) *)

Section Invariant.
Context (net : upstream) (Hnet : upstream_counts_nonneg net).

Lemma attempt_counts_ok attempt w :
  counts_ok (table w) → counts_ok (table (attempt_body net attempt w).2).
Proof.
  intros Hw.
  destruct (attempt_table net attempt w)
    as [->|(r & m & g & rest & n & Hr & Hb & Hd & Hbind & ->)]; [done|].
  apply Forall_app. split; [done|]. repeat constructor. simpl.
  destruct (g !! "playing") as [c|] eqn:Hc; simpl in Hbind.
  - destruct (Hnet _ _ _ Hr Hb m g rest c eq_refl Hd Hc) as (n' & -> & Hn').
    simpl in Hbind. case_bool_decide; by simplify_eq.
  - by simplify_eq.
Qed.

Lemma for_in_counts_ok range w :
  counts_ok (table w) →
  counts_ok (table (for_in range (attempt_body net) w).2).
Proof.
  revert w. induction range as [|a range IH]; intros w Hw; [done|].
  simpl. unfold bind.
  pose proof (attempt_counts_ok a w Hw) as Ha.
  destruct (attempt_body net a w) as [[e|[|v]] w']; simpl in *; try done.
  by apply IH.
Qed.

Lemma fetch_and_save_data_counts_ok w :
  counts_ok (table w) → counts_ok (table (fetch_and_save_data net w).2).
Proof.
  intros Hw. rewrite fetch_and_save_data_loop.
  pose proof (for_in_counts_ok (range max_retries) (announced w) Hw) as Hf.
  by destruct (for_in _ (attempt_body net) _) as [[e|[|v]] w'].
Qed.

End Invariant.

(** C4 fails as stated.  Nothing checks the sign of the count: one tick
    against an upstream that reports [-5] players leaves a row with
    [player_count] [-5] in the table. *)
Lemma negative_count_is_stored :
  reachable [Entry 1 0 (-5)] ∧
  ¬ (∀ rows, reachable rows → ∀ e, e ∈ rows → 0 ≤ player_count e).
Proof.
  assert (Hreach : reachable [Entry 1 0 (-5)]).
  { change [Entry 1 0 (-5)]
      with (table (job_wrapper (always_200 (body_playing (JNum (-5)))) (fresh 0)).2).
    apply reach_tick; [done|]. apply reach_create_all. }
  split; [done|]. intros H.
  specialize (H _ Hreach (Entry 1 0 (-5))). simpl in H.
  assert (0 ≤ -5) by (apply H; by left). lia.
Qed.

(** C4, amended.  Provided every ['playing'] value the upstream puts in the
    first record of a body is a non-negative integer, every row of every
    table the ticks can produce has [player_count >= 0]. *)
Theorem stored_counts_nonneg rows :
  reachable_under upstream_counts_nonneg rows →
  ∀ e, e ∈ rows → 0 ≤ player_count e.
Proof.
  intros Hreach.
  assert (Hok : counts_ok rows).
  { induction Hreach as [|net w Hnet _ IH]; [constructor|].
    by apply fetch_and_save_data_counts_ok. }
  intros e He. unfold counts_ok in Hok. rewrite Forall_forall in Hok. by apply Hok.
Qed.

Lemma stored_counts_nonneg_witness :
  0 ≤ player_count (Entry 1 0 42).
Proof.
  apply (stored_counts_nonneg [Entry 1 0 42]).
  - change [Entry 1 0 42]
      with (table (job_wrapper (always_200 (body_playing (JNum 42))) (fresh 0)).2).
    apply reach_tick; [|apply reach_create_all].
    intros n r v Hr Hv m g rest c Hm Hd Hc.
    unfold always_200 in Hr. injection Hr as <-. simpl in Hv.
    injection Hv as <-. unfold body_playing in Hm. injection Hm as <-.
    rewrite lookup_singleton_eq in Hd. injection Hd as <- <-.
    rewrite lookup_singleton_eq in Hc. injection Hc as <-.
    exists 42. split; [reflexivity|lia].
  - left.
Defined.

(** ** Queries on the table *)

Lemma timestamp_asc_trans : Transitive Query.timestamp_asc.
Proof. unfold Query.timestamp_asc. intros a b c. lia. Qed.
Lemma timestamp_asc_total : Total Query.timestamp_asc.
Proof. unfold Query.timestamp_asc. intros a b. lia. Qed.
Lemma timestamp_desc_trans : Transitive Query.timestamp_desc.
Proof. unfold Query.timestamp_desc. intros a b c. lia. Qed.
Lemma timestamp_desc_total : Total Query.timestamp_desc.
Proof. unfold Query.timestamp_desc. intros a b. lia. Qed.

(** [order_by] sorts, and keeps the rows. *)
Lemma order_by_asc_sorted rows :
  StronglySorted Query.timestamp_asc (Query.order_by_asc rows).
Proof.
  apply (@StronglySorted_merge_sort _ _ _ timestamp_asc_trans timestamp_asc_total).
Qed.
Lemma order_by_desc_sorted rows :
  StronglySorted Query.timestamp_desc (Query.order_by_desc rows).
Proof.
  apply (@StronglySorted_merge_sort _ _ _ timestamp_desc_trans timestamp_desc_total).
Qed.

Lemma latest_entry_empty : latest_entry [] = None.
Proof. reflexivity. Qed.

(** The latest entry is a row of the table, and no row is newer. *)
Lemma latest_entry_newest rows :
  rows ≠ [] →
  ∃ e, latest_entry rows = Some e ∧ e ∈ rows ∧
       ∀ e', e' ∈ rows → timestamp e' ≤ timestamp e.
Proof.
  intros Hne. unfold latest_entry, Query.first.
  pose proof (order_by_desc_sorted rows) as Hsort.
  unfold Query.order_by_desc in *.
  pose proof (merge_sort_Permutation Query.timestamp_desc rows) as Hperm.
  destruct (merge_sort Query.timestamp_desc rows) as [|e l].
  { apply Permutation_nil_l in Hperm. done. }
  exists e. split_and!; [done| |].
  - rewrite <- Hperm. by left.
  - intros e' He'. rewrite <- Hperm in He'.
    apply StronglySorted_inv in Hsort as [_ Hall].
    apply elem_of_cons in He' as [->|He']; [done|].
    rewrite Forall_forall in Hall. by apply Hall.
Qed.

Lemma scalar_max_None values : Query.scalar_max values = None ↔ values = [].
Proof. by destruct values. Qed.

Lemma foldr_max_bounds (v : Z) rest :
  (foldr Z.max v rest = v ∨ foldr Z.max v rest ∈ rest) ∧
  v ≤ foldr Z.max v rest ∧
  ∀ x, x ∈ rest → x ≤ foldr Z.max v rest.
Proof.
  induction rest as [|y rest (Hin & Hv & Hall)]; simpl.
  - split_and!; [by left|done|]. by intros x ?%elem_of_nil.
  - split_and!.
    + destruct (Z.max_spec y (foldr Z.max v rest)) as [[_ ->]|[_ ->]].
      * destruct Hin; [by left|right; by right].
      * right; by left.
    + lia.
    + intros x [->|Hx]%elem_of_cons; [lia|]. specialize (Hall x Hx). lia.
Qed.

(** SQL [max]: a value of the column, and an upper bound of all of them. *)
Lemma scalar_max_Some values v :
  Query.scalar_max values = Some v →
  v ∈ values ∧ ∀ x, x ∈ values → x ≤ v.
Proof.
  destruct values as [|y rest]; [done|]. simpl. intros [= <-].
  destruct (foldr_max_bounds y rest) as (Hin & Hv & Hall). split.
  - destruct Hin as [->|Hin]; [by left|by right].
  - intros x [->|Hx]%elem_of_cons; [done|by apply Hall].
Qed.

Lemma or_0_Some v : or_0 (Some v) = v.
Proof. simpl. by case_bool_decide. Qed.

Lemma elem_of_filter_since since rows e :
  e ∈ Query.filter_since since rows ↔ since ≤ timestamp e ∧ e ∈ rows.
Proof. unfold Query.filter_since. by rewrite list_elem_of_filter. Qed.

(** The 24-hour maximum when some row is in the window, and when none is. *)
Lemma max_in_window now rows :
  let since := now - datetime.hours 24 in
  let result := max_players_24h (get_summary now rows) in
  ((∃ e, e ∈ rows ∧ since ≤ timestamp e) →
   (∃ e, e ∈ rows ∧ since ≤ timestamp e ∧ result = player_count e) ∧
   (∀ e, e ∈ rows → since ≤ timestamp e → player_count e ≤ result)) ∧
  ((∀ e, e ∈ rows → timestamp e < since) → result = 0).
Proof.
  intros since result. subst result. unfold get_summary. simpl. fold since.
  destruct (Query.scalar_max _) as [v|] eqn:Hmax.
  - rewrite or_0_Some. apply scalar_max_Some in Hmax as [Hin Hall].
    apply list_elem_of_fmap in Hin as (e & -> & He).
    apply elem_of_filter_since in He as [Hs He]. split.
    + intros _. split; [by exists e|].
      intros e' He' Hs'. apply Hall. apply list_elem_of_fmap. exists e'.
      split; [done|]. by apply elem_of_filter_since.
    + intros Hold. specialize (Hold e He). lia.
  - simpl. apply scalar_max_None, fmap_nil_inv in Hmax. split; [|done].
    intros (e & He & Hs).
    assert (e ∈ Query.filter_since since rows) as Hin
      by by apply elem_of_filter_since.
    rewrite Hmax in Hin. by apply elem_of_nil in Hin.
Qed.

(** ** The summary (C5, C7, C9, C10) *)

(** C5.  Whatever the table and the clock, with the cutoff 24 hours before
    the clock, [max_players_24h] is the largest [player_count] among exactly
    the rows whose timestamp is at or after the cutoff: it is the count of
    such a row and no such row has a larger one; it is 0 when no row
    qualifies. *)
Theorem max_players_24h_is_window_max now rows :
  ((∃ e, e ∈ rows ∧ now - datetime.hours 24 ≤ timestamp e) →
   (∃ e, e ∈ rows ∧ now - datetime.hours 24 ≤ timestamp e ∧
         max_players_24h (get_summary now rows) = player_count e) ∧
   (∀ e, e ∈ rows → now - datetime.hours 24 ≤ timestamp e →
         player_count e ≤ max_players_24h (get_summary now rows))) ∧
  ((∀ e, e ∈ rows → ¬ now - datetime.hours 24 ≤ timestamp e) →
   max_players_24h (get_summary now rows) = 0).
Proof.
  destruct (max_in_window now rows) as [Hsome Hnone]. split; [exact Hsome|].
  intros Hold. apply Hnone. intros e He. specialize (Hold e He). lia.
Qed.

Lemma max_players_24h_is_window_max_witness :
  max_players_24h
    (get_summary (datetime.hours 30)
       [Entry 1 0 99; Entry 2 (datetime.hours 7) 5; Entry 3 (datetime.hours 8) 3])
  = 5.
Proof.
  destruct (max_players_24h_is_window_max (datetime.hours 30)
              [Entry 1 0 99; Entry 2 (datetime.hours 7) 5;
               Entry 3 (datetime.hours 8) 3]) as [Hsome _].
  destruct Hsome as [(e & He & Hs & ->) Hall].
  { exists (Entry 2 (datetime.hours 7) 5). split; [right; left|vm_compute; discriminate]. }
  assert (H5 : player_count (Entry 2 (datetime.hours 7) 5) ≤ player_count e).
  { apply Hall; [right; left|vm_compute; discriminate]. }
  simpl in H5.
  apply elem_of_cons in He as [->|He]; [vm_compute in Hs; done|].
  apply elem_of_cons in He as [->|He]; [done|].
  apply elem_of_cons in He as [->|He]; [simpl in H5; lia|].
  by apply elem_of_nil in He.
Defined.

(** C7.  On the empty table [get_summary] answers 0 for both
    [current_players] and [max_players_24h]. *)
Theorem summary_of_empty_table now :
  get_summary now [] = Summary GAME_NAME 0 0.
Proof. reflexivity. Qed.

(** C9.  On a non-empty table the latest-entry query returns a row whose
    timestamp is the largest in the table, and [current_players] is the
    [player_count] of that row. *)
Theorem current_players_is_latest now rows :
  rows ≠ [] →
  ∃ e, latest_entry rows = Some e ∧
       e ∈ rows ∧
       (∀ e', e' ∈ rows → timestamp e' ≤ timestamp e) ∧
       current_players (get_summary now rows) = player_count e.
Proof.
  intros Hne. destruct (latest_entry_newest rows Hne) as (e & Hl & He & Hmax).
  exists e. split_and!; try done. unfold get_summary. simpl. by rewrite Hl.
Qed.

Lemma current_players_is_latest_witness :
  ∃ e, latest_entry [Entry 1 5 10; Entry 2 9 30; Entry 3 7 20] = Some e ∧
       e ∈ [Entry 1 5 10; Entry 2 9 30; Entry 3 7 20] ∧
       (∀ e', e' ∈ [Entry 1 5 10; Entry 2 9 30; Entry 3 7 20] →
              timestamp e' ≤ timestamp e) ∧
       current_players
         (get_summary 100 [Entry 1 5 10; Entry 2 9 30; Entry 3 7 20])
       = player_count e.
Proof.
  apply (current_players_is_latest 100 [Entry 1 5 10; Entry 2 9 30; Entry 3 7 20]).
  discriminate.
Defined.

(** C10.  On a non-empty table whose rows are all older than 24 hours,
    [current_players] is still the [player_count] of a newest row, since the
    latest-entry query has no time window, while [max_players_24h] is 0. *)
Theorem stale_table_summary now rows :
  rows ≠ [] →
  (∀ e, e ∈ rows → timestamp e < now - datetime.hours 24) →
  (∃ e, e ∈ rows ∧
        (∀ e', e' ∈ rows → timestamp e' ≤ timestamp e) ∧
        current_players (get_summary now rows) = player_count e) ∧
  max_players_24h (get_summary now rows) = 0.
Proof.
  intros Hne Hold. split.
  - destruct (latest_entry_newest rows Hne) as (e & Hl & He & Hmax).
    exists e. split_and!; try done. unfold get_summary. simpl. by rewrite Hl.
  - by apply max_in_window.
Qed.

Lemma stale_table_summary_witness :
  (∃ e, e ∈ [Entry 1 0 50; Entry 2 (datetime.hours 1) 70] ∧
        (∀ e', e' ∈ [Entry 1 0 50; Entry 2 (datetime.hours 1) 70] →
               timestamp e' ≤ timestamp e) ∧
        current_players
          (get_summary (datetime.hours 48)
             [Entry 1 0 50; Entry 2 (datetime.hours 1) 70])
        = player_count e) ∧
  max_players_24h
    (get_summary (datetime.hours 48) [Entry 1 0 50; Entry 2 (datetime.hours 1) 70])
  = 0.
Proof.
  apply (stale_table_summary (datetime.hours 48)
           [Entry 1 0 50; Entry 2 (datetime.hours 1) 70]).
  - discriminate.
  - intros e He.
    apply elem_of_cons in He as [->|He]; [vm_compute; reflexivity|].
    apply elem_of_cons in He as [->|He]; [vm_compute; reflexivity|].
    by apply elem_of_nil in He.
Defined.

(** On such a table the two fields disagree about whether there is data. *)
Example stale_table_fields_disagree :
  get_summary (datetime.hours 48) [Entry 1 0 50; Entry 2 (datetime.hours 1) 70]
  = Summary GAME_NAME 70 0.
Proof. vm_compute. reflexivity. Qed.

(** ** The historical series (C6) *)

Lemma historical_foldl entries acc :
  foldl (λ acc entry,
           Historical (labels acc ++ [datetime.strftime_HM (timestamp entry)])
                      (data acc ++ [player_count entry]))
        acc entries
  = Historical (labels acc ++ ((λ e, datetime.strftime_HM (timestamp e)) <$> entries))
               (data acc ++ (player_count <$> entries)).
Proof.
  revert acc. induction entries as [|e entries IH]; intros acc; simpl.
  - rewrite !app_nil_r. by destruct acc.
  - rewrite IH. simpl. by rewrite <- !app_assoc.
Qed.

(** The loop of [get_historical_data] maps the entries to two columns. *)
Lemma get_historical_data_columns now rows :
  get_historical_data now rows
  = Historical ((λ e, datetime.strftime_HM (timestamp e)) <$> entries_24h now rows)
               (player_count <$> entries_24h now rows).
Proof. unfold get_historical_data. by rewrite historical_foldl. Qed.

(** [%H:%M] prints the hour and the minute of the day the instant falls in,
    two digits each. *)
Lemma strftime_HM_clock t :
  0 ≤ datetime.hour t < 24 ∧
  0 ≤ datetime.minute t < 60 ∧
  datetime.hour t * datetime.HOUR + datetime.minute t * datetime.MINUTE
    ≤ t mod datetime.DAY
    < datetime.hour t * datetime.HOUR + (datetime.minute t + 1) * datetime.MINUTE.
Proof.
  unfold datetime.hour, datetime.minute, datetime.DAY, datetime.HOUR,
    datetime.MINUTE, datetime.SECOND.
  Z.div_mod_to_equations. lia.
Qed.

(** C6.  Whatever the table, the rows behind the answer of
    [get_historical_data] are exactly the rows with a timestamp in the last
    24 hours, in ascending timestamp order; [labels] and [data] have one item
    per such row; item [i] of [data] is the [player_count] of the [i]-th row
    and item [i] of [labels] is its time of day as ["HH:MM"], two digits each,
    on the 24-hour clock. *)
Theorem historical_series now rows :
  ∃ entries,
    entries ≡ₚ filter (λ e, now - datetime.hours 24 ≤ timestamp e) rows ∧
    StronglySorted (λ a b, timestamp a ≤ timestamp b) entries ∧
    length (labels (get_historical_data now rows))
      = length (data (get_historical_data now rows)) ∧
    length (data (get_historical_data now rows)) = length entries ∧
    ∀ (i : nat) e, entries !! i = Some e →
      data (get_historical_data now rows) !! i = Some (player_count e) ∧
      ∃ hh mm,
        0 ≤ hh < 24 ∧ 0 ≤ mm < 60 ∧
        hh * datetime.HOUR + mm * datetime.MINUTE
          ≤ timestamp e mod datetime.DAY
          < hh * datetime.HOUR + (mm + 1) * datetime.MINUTE ∧
        labels (get_historical_data now rows) !! i
          = Some (String (datetime.digit (hh / 10))
                 (String (datetime.digit (hh mod 10))
                 (String ":"%char
                 (String (datetime.digit (mm / 10))
                 (String (datetime.digit (mm mod 10)) EmptyString))))).
Proof.
  exists (entries_24h now rows). rewrite get_historical_data_columns. simpl.
  split_and!.
  - unfold entries_24h, Query.order_by_asc, Query.filter_since.
    apply merge_sort_Permutation.
  - apply order_by_asc_sorted.
  - by rewrite !length_fmap.
  - by rewrite length_fmap.
  - intros i e Hi. rewrite !list_lookup_fmap, Hi. simpl. split; [done|].
    exists (datetime.hour (timestamp e)), (datetime.minute (timestamp e)).
    destruct (strftime_HM_clock (timestamp e)) as (Hh & Hm & Hday).
    split_and!; try lia. reflexivity.
Qed.

(** ** The end-to-end scenario (C3) *)

(** C3 fails as stated.  At [t0 + 26h] the cutoff is [t0 + 2h], so the sample
    taken at [t0 + 1h] is outside the window: the series has one item, not
    two. *)
Lemma scenario_has_one_entry :
  get_historical_data (0 + datetime.hours 26) (scenario 0)
    = Historical ["01:00"] [90] ∧
  length (data (get_historical_data (0 + datetime.hours 26) (scenario 0))) ≠ 2%nat.
Proof. split; [vm_compute; reflexivity|vm_compute; discriminate]. Qed.

Lemma scenario_latest t0 :
  latest_entry (scenario t0) = Some (Entry 3 (t0 + datetime.hours 25) 90).
Proof.
  destruct (latest_entry_newest (scenario t0)) as (e & -> & He & Hmax); [done|].
  f_equal.
  assert (H3 : timestamp (Entry 3 (t0 + datetime.hours 25) 90) ≤ timestamp e).
  { apply Hmax. unfold scenario. do 2 right. left. }
  unfold scenario in He. simpl in H3.
  unfold datetime.hours, datetime.HOUR, datetime.MINUTE, datetime.SECOND in *.
  apply elem_of_cons in He as [->|He]; [simpl in H3; lia|].
  apply elem_of_cons in He as [->|He]; [simpl in H3; lia|].
  apply elem_of_cons in He as [->|He]; [done|].
  by apply elem_of_nil in He.
Qed.

Lemma scenario_window t0 :
  Query.filter_since (t0 + datetime.hours 26 - datetime.hours 24) (scenario t0)
  = [Entry 3 (t0 + datetime.hours 25) 90].
Proof.
  unfold Query.filter_since, scenario.
  rewrite !filter_cons, filter_nil. simpl.
  unfold datetime.hours, datetime.HOUR, datetime.MINUTE, datetime.SECOND.
  repeat case_decide; try lia. done.
Qed.

(** C3, amended.  For the table holding the samples [(t0, 50)],
    [(t0 + 1h, 70)] and [(t0 + 25h, 90)], queried at [t0 + 26h]:
    [get_summary] answers [current_players = 90] and [max_players_24h = 90],
    and [get_historical_data] answers one item, the sample of [t0 + 25h]. *)
Theorem scenario_end_to_end t0 :
  get_summary (t0 + datetime.hours 26) (scenario t0) = Summary GAME_NAME 90 90 ∧
  get_historical_data (t0 + datetime.hours 26) (scenario t0)
    = Historical [datetime.strftime_HM (t0 + datetime.hours 25)] [90].
Proof.
  split.
  - unfold get_summary. by rewrite scenario_latest, scenario_window.
  - rewrite get_historical_data_columns. unfold entries_24h.
    by rewrite scenario_window.
Qed.

(** * Further properties of the fetcher *)

(** ** What one attempt does to the world *)

(** Every way an attempt can end: one request is issued; a row is appended
    exactly when the attempt returns a sample; the clock and the sleep record
    move only when the answer is 429. *)
Lemma attempt_effect net attempt w o w' :
  attempt_body net attempt w = (o, w') →
  requests_sent w' = S (requests_sent w) ∧
  match o with
  | inr (Return (Some v)) =>
      ∃ n, Query.bind_integer v = inr n ∧
           table w' = table w ++ [Entry (Query.next_id (table w)) (utcnow w) n] ∧
           utcnow w' = utcnow w ∧ slept w' = slept w
  | inr Continue =>
      table w' = table w ∧
      ((utcnow w' = utcnow w ∧ slept w' = slept w) ∨
       (utcnow w' = utcnow w + initial_delay * 2 ^ attempt * datetime.SECOND ∧
        slept w' = slept w ++ [initial_delay * 2 ^ attempt]))
  | _ => table w' = table w ∧ utcnow w' = utcnow w ∧ slept w' = slept w
  end.
Proof.
  intros E.
  destruct (net (requests_sent w)) as [r|] eqn:H.
  2:{ rewrite attempt_no_answer in E by done. by simplify_eq. }
  destruct (decide (status_code r = 200)) as [Hs|Hs].
  - destruct (body r) as [[| | | |l|m]|] eqn:Hb;
      try solve
        [ unfold attempt_body, bind at 1, requests_get in E;
          rewrite H, Hs in E; simpl in E;
          unfold bind, lift, response_json, has_records, bind, lift in E;
          rewrite Hb in E; by simplify_eq/= ].
    destruct (m !! "data") as [d|] eqn:Hd.
    2:{ unfold attempt_body, bind at 1, requests_get in E.
        rewrite H, Hs in E; simpl in E.
        unfold bind, lift, response_json, has_records, bind, lift in E.
        rewrite Hb in E; simpl in E. rewrite Hd in E. simpl in E.
        unfold ret in E. by simplify_eq/=. }
    destruct d as [|b|n|s|[|[| | | | |g] rest]|m'];
      try solve
        [ unfold attempt_body, bind at 1, requests_get in E;
          rewrite H, Hs in E; simpl in E;
          unfold bind, lift, response_json, has_records, bind, lift in E;
          rewrite Hb in E; simpl in E; rewrite Hd in E; simpl in E;
          unfold ret in *; try by simplify_eq/=;
          repeat (first [case_match | case_bool_decide];
                  unfold ret in *; simplify_eq/=; try done) ].
    rewrite (attempt_200_first_record net attempt w r m g rest H Hs Hb Hd) in E.
    simpl in E.
    destruct (Query.bind_integer _) as [e|n] eqn:Hbind;
      injection E as <- <-; simpl.
    + done.
    + split; [done|]. by exists n.
  - destruct (decide (status_code r = 429)) as [H4|H4].
    + rewrite (attempt_429 net attempt w) in E by (by exists r).
      simplify_eq/=. split_and!; try done. by right.
    + destruct (decide (error_status (status_code r))).
      * rewrite (attempt_error_status net attempt w r) in E by done.
        by simplify_eq/=.
      * rewrite (attempt_other_status net attempt w r) in E by done.
        simplify_eq/=. split_and!; try done. by left.
Qed.

(** ** What the retry loop does to the world *)

Lemma for_in_effect net range w o w' :
  for_in range (attempt_body net) w = (o, w') →
  (requests_sent w ≤ requests_sent w' ≤ requests_sent w + length range)%nat ∧
  (range ≠ [] → (requests_sent w < requests_sent w')%nat) ∧
  (∃ l, sublist l (delays_of range) ∧
        slept w' = slept w ++ l ∧
        utcnow w' = utcnow w + total l * datetime.SECOND) ∧
  match o with
  | inr (Return (Some v)) =>
      ∃ n, Query.bind_integer v = inr n ∧
           table w' = table w ++ [Entry (Query.next_id (table w)) (utcnow w') n]
  | _ => table w' = table w
  end.
Proof.
  revert w. induction range as [|a range IH]; intros w E.
  - simpl in E. unfold ret in E. simplify_eq. split_and!; try done; [lia|].
    exists []. split_and!; [constructor|by rewrite app_nil_r|simpl; lia].
  - simpl in E. unfold bind in E.
    destruct (attempt_body net a w) as [o1 w1] eqn:E1.
    apply attempt_effect in E1 as [Hn Ho].
    destruct o1 as [e|[|v]].
    + simplify_eq. destruct Ho as (Ht & Hu & Hs).
      split_and!; [lia|simpl; lia|intros _; lia| |done].
      exists []. rewrite app_nil_r. split_and!; [apply sublist_nil_l|done|simpl; lia].
    + destruct Ho as (Ht & Hback).
      apply IH in E as ([Hlo Hhi] & _ & (l & Hl & Hs & Hu) & Ho').
      split_and!; [lia|simpl; lia|intros _; lia| |].
      * destruct Hback as [[Hu1 Hs1]|[Hu1 Hs1]].
        -- exists l. rewrite Hs, Hu, Hs1, Hu1. split_and!; [|done|done].
           simpl. by apply sublist_cons.
        -- exists ((initial_delay * 2 ^ a) :: l). rewrite Hs, Hu, Hs1, Hu1.
           split_and!; [by apply sublist_skip|by rewrite <- app_assoc|simpl; lia].
      * destruct o as [e|[|[c|]]]; rewrite ?Ht in Ho'; try done.
    + unfold ret in E. simplify_eq.
      assert (Hclock : utcnow w' = utcnow w ∧ slept w' = slept w).
      { destruct v as [c|]; [destruct Ho as (n & _ & _ & ? & ?)|destruct Ho as (_ & ? & ?)]; done. }
      destruct Hclock as [Hu Hs].
      split_and!; [lia|simpl; lia|intros _; lia| |].
      * exists []. rewrite app_nil_r. split_and!; [apply sublist_nil_l|done|simpl; lia].
      * destruct v as [c|]; [|by destruct Ho].
        destruct Ho as (n & Hb & Ht & _). exists n. by rewrite Hu.
Qed.

(** The whole call: it returns, having issued between one and three
    requests, slept some of the delays 1, 2, 4 in that order, and appended a
    row exactly when it returns a sample. *)
Lemma fetch_and_save_data_effect net w :
  ∃ v w',
    fetch_and_save_data net w = (inr v, w') ∧
    (requests_sent w < requests_sent w' ≤ requests_sent w + 3)%nat ∧
    (∃ l, sublist l [1; 2; 4] ∧
          slept w' = slept w ++ l ∧
          utcnow w' = utcnow w + total l * datetime.SECOND) ∧
    match v with
    | Some c =>
        ∃ n, Query.bind_integer c = inr n ∧
             table w' = table w ++ [Entry (Query.next_id (table w)) (utcnow w') n]
    | None => table w' = table w
    end.
Proof.
  rewrite fetch_and_save_data_loop.
  destruct (for_in (range max_retries) (attempt_body net) (announced w))
    as [o w1] eqn:E.
  apply for_in_effect in E as ([Hlo Hhi] & Hlt & Hsl & Ho).
  specialize (Hlt ltac:(done)). simpl in *.
  destruct o as [e|[|[c|]]]; eexists _, _; (split; [reflexivity|]); simpl;
    (split_and!; [lia|lia|exact Hsl|exact Ho]).
Qed.


(** ** The outcome of a call *)



(** X2.  A call issues at least one and at most three GET requests. *)
Theorem between_one_and_three_requests net w :
  (requests_sent w < requests_sent (fetch_and_save_data net w).2
   ≤ requests_sent w + 3)%nat.
Proof.
  destruct (fetch_and_save_data_effect net w) as (v & w' & -> & Hn & _).
  exact Hn.
Qed.


(** ** Reaching a given attempt *)

(** When the first [k] attempts let the loop go on, the loop arrives at
    attempt [k] with the table untouched and [k] requests issued. *)
Lemma loop_reaches_attempt net w (k : nat) :
  (k < 3)%nat →
  (∀ j, (j < k)%nat → goes_on net (requests_sent w + j)%nat) →
  ∃ rest w',
    for_in (range max_retries) (attempt_body net) (announced w)
    = for_in (Z.of_nat k :: rest) (attempt_body net) w' ∧
    table w' = table w ∧
    requests_sent w' = (requests_sent w + k)%nat.
Proof.
  intros Hk Hgo. change (range max_retries) with [0; 1; 2].
  assert (Hsplit : ∃ pre rest,
             [0; 1; 2] = pre ++ Z.of_nat k :: rest ∧ length pre = k).
  { destruct k as [|[|[|k]]];
      [by exists [], [1; 2]|by exists [0], [2]|by exists [0; 1], []|lia]. }
  destruct Hsplit as (pre & rest & -> & Hlen).
  destruct (for_in_goes_on net pre (Z.of_nat k :: rest) (announced w))
    as (w' & -> & Ht & Hn).
  { rewrite Hlen. exact Hgo. }
  exists rest, w'. split_and!; [done|done|]. rewrite Hn, Hlen. done.
Qed.

(** The same when the first [k] attempts are all rate-limited: the world
    the loop arrives in is known exactly. *)
Lemma loop_after_rate_limits net w (k : nat) :
  (k < 3)%nat →
  (∀ j, (j < k)%nat → answers_with net (requests_sent w + j)%nat 429) →
  ∃ rest,
    for_in (range max_retries) (attempt_body net) (announced w)
    = for_in (Z.of_nat k :: rest) (attempt_body net)
        (foldl backed_off (announced w) (take k [0; 1; 2])).
Proof.
  intros Hk H. change (range max_retries) with [0; 1; 2].
  destruct k as [|[|[|k]]]; [| | |lia].
  - by exists [1; 2].
  - exists [2]. simpl for_in at 1. unfold bind at 1.
    rewrite (attempt_429 net 0 (announced w)); [done|].
    specialize (H 0%nat). rewrite Nat.add_0_r in H. apply H. lia.
  - exists []. simpl for_in at 1. unfold bind at 1.
    rewrite (attempt_429 net 0 (announced w)).
    2:{ specialize (H 0%nat). rewrite Nat.add_0_r in H. apply H. lia. }
    unfold bind at 1. rewrite (attempt_429 net 1 (backed_off (announced w) 0)); [done|].
    simpl. replace (S (requests_sent w)) with (requests_sent w + 1)%nat by lia.
    apply H. lia.
Qed.

(** ** The success path *)

(** X4.  When the first [k] attempts (none, one or two) are rate-limited and
    the next answer is a 200 whose first record carries an integer
    ['playing'] count [n] that fits a 64-bit column, the call returns [n],
    has issued [k + 1] requests and slept the first [k] of the delays 1, 2, 4,
    and has appended one row holding [n], stamped with the clock after those
    sleeps. *)
Theorem sample_saved_after_rate_limits net w (k : nat) r m g rest n :
  (k < 3)%nat →
  (∀ j, (j < k)%nat → answers_with net (requests_sent w + j)%nat 429) →
  net (requests_sent w + k)%nat = Answer r →
  status_code r = 200 →
  body r = Some (JObj m) →
  m !! "data" = Some (JArr (JObj g :: rest)) →
  g !! "playing" = Some (JNum n) →
  - 2 ^ 63 ≤ n < 2 ^ 63 →
  (fetch_and_save_data net w).1 = inr (Some (JNum n)) ∧
  table (fetch_and_save_data net w).2
  = table w ++
    [Entry (Query.next_id (table w))
           (utcnow w + total (take k [1; 2; 4]) * datetime.SECOND) n] ∧
  requests_sent (fetch_and_save_data net w).2 = (requests_sent w + k + 1)%nat ∧
  slept (fetch_and_save_data net w).2 = slept w ++ take k [1; 2; 4].
Proof.
  intros Hk H429 Hr Hs Hb Hd Hg Hn. rewrite fetch_and_save_data_loop.
  destruct (loop_after_rate_limits net w k Hk H429) as (rest' & ->).
  set (w' := foldl backed_off (announced w) (take k [0; 1; 2])).
  assert (Hw' : table w' = table w ∧
                requests_sent w' = (requests_sent w + k)%nat ∧
                slept w' = slept w ++ take k [1; 2; 4] ∧
                utcnow w' = utcnow w + total (take k [1; 2; 4]) * datetime.SECOND).
  { subst w'. unfold backed_off, initial_delay, total, datetime.SECOND.
    destruct k as [|[|[|k]]]; [| | |lia]; simpl;
      rewrite <- ?app_assoc, ?app_nil_r; split_and!; try done; lia. }
  destruct Hw' as (Ht & Hsent & Hslept & Hclock).
  simpl for_in. unfold bind.
  rewrite (attempt_200_first_record net _ w' r m g rest) by (rewrite ?Hsent; done).
  rewrite Hg. simpl. rewrite bool_decide_eq_true_2 by done. simpl.
  rewrite Ht, Hsent, Hslept, Hclock. split_and!; [done|done|lia|done].
Qed.

Lemma sample_saved_after_rate_limits_witness :
  (fetch_and_save_data rate_limit_then_ok (fresh 0)).1 = inr (Some (JNum 10)) ∧
  table (fetch_and_save_data rate_limit_then_ok (fresh 0)).2
  = [Entry 1 1000000 10] ∧
  requests_sent (fetch_and_save_data rate_limit_then_ok (fresh 0)).2 = 2%nat ∧
  slept (fetch_and_save_data rate_limit_then_ok (fresh 0)).2 = [1].
Proof.
  apply (sample_saved_after_rate_limits rate_limit_then_ok (fresh 0) 1
           (mkResponse 200 (Some (body_playing (JNum 10))))
           ({[ "data" := JArr [JObj {[ "playing" := JNum 10 ]}] ]}
              : gmap string json)
           ({[ "playing" := JNum 10 ]} : gmap string json) [] 10).
  - lia.
  - intros j Hj. assert (j = 0%nat) as -> by lia.
    exists (mkResponse 429 None). split; reflexivity.
  - reflexivity.
  - reflexivity.
  - reflexivity.
  - reflexivity.
  - reflexivity.
  - lia.
Defined.

(** ** Failures that end the tick *)

Lemma attempt_200_bad_body net attempt w r :
  net (requests_sent w) = Answer r →
  status_code r = 200 →
  (∀ m, body r ≠ Some (JObj m)) →
  attempt_body net attempt w =
  (inl (match body r with None => JSONDecodeError | Some _ => AttributeError end),
   requested w).
Proof.
  intros H Hs Hb. unfold attempt_body, bind at 1, requests_get.
  rewrite H, Hs. simpl.
  unfold bind, lift, response_json, has_records, bind, lift.
  destruct (body r) as [[| | | | |m]|]; try done. by destruct (Hb m).
Qed.

Lemma attempt_200_falsy_data net attempt w r m :
  net (requests_sent w) = Answer r →
  status_code r = 200 →
  body r = Some (JObj m) →
  Py.truthy (default JNull (m !! "data")) = false →
  attempt_body net attempt w =
  (inr (Return None),
   World (table w) (utcnow w) (S (requests_sent w)) (slept w)
         (stdout w ++ [WarningUnexpectedStructure])).
Proof.
  intros H Hs Hb Hd. unfold attempt_body, bind at 1, requests_get.
  rewrite H, Hs. simpl.
  unfold bind, lift, response_json, has_records, bind, lift. rewrite Hb.
  simpl. rewrite Hd. done.
Qed.

(** X5.  When an attempt gets no answer at all (connection failure,
    timeout), every earlier attempt of the run having let the loop go on, the
    call makes no further attempt, leaves the table as it was, returns [None]
    and its last printed line reports the failure to fetch. *)
Theorem no_answer_ends_tick net w (k : nat) :
  (k < 3)%nat →
  (∀ j, (j < k)%nat → goes_on net (requests_sent w + j)%nat) →
  net (requests_sent w + k)%nat = NoAnswer →
  (fetch_and_save_data net w).1 = inr None ∧
  requests_sent (fetch_and_save_data net w).2 = (requests_sent w + k + 1)%nat ∧
  table (fetch_and_save_data net w).2 = table w ∧
  last (stdout (fetch_and_save_data net w).2)
  = Some (ErrorFetchFailed ConnectionError).
Proof.
  intros Hk Hgo Hr. rewrite fetch_and_save_data_loop.
  destruct (loop_reaches_attempt net w k Hk Hgo) as (rest & w' & -> & Ht & Hn).
  simpl for_in. unfold bind.
  rewrite (attempt_no_answer net _ w') by (by rewrite Hn).
  simpl. rewrite Ht, Hn, last_snoc. split_and!; [done|lia|done|done].
Qed.

Lemma no_answer_ends_tick_witness :
  (fetch_and_save_data unreachable_host (fresh 0)).1 = inr None ∧
  requests_sent (fetch_and_save_data unreachable_host (fresh 0)).2 = 1%nat ∧
  table (fetch_and_save_data unreachable_host (fresh 0)).2 = [] ∧
  last (stdout (fetch_and_save_data unreachable_host (fresh 0)).2)
  = Some (ErrorFetchFailed ConnectionError).
Proof.
  apply (no_answer_ends_tick unreachable_host (fresh 0) 0).
  - lia.
  - intros j Hj. lia.
  - reflexivity.
Defined.

(** X6.  When a 200 answer has a body that is not a JSON object, the call
    makes no further attempt, leaves the table as it was and returns [None].
    A body that is not JSON at all is reported as a failure to fetch; a JSON
    value of another kind as an unexpected error. *)
Theorem bad_body_ends_tick net w (k : nat) r :
  (k < 3)%nat →
  (∀ j, (j < k)%nat → goes_on net (requests_sent w + j)%nat) →
  net (requests_sent w + k)%nat = Answer r →
  status_code r = 200 →
  (∀ m, body r ≠ Some (JObj m)) →
  (fetch_and_save_data net w).1 = inr None ∧
  requests_sent (fetch_and_save_data net w).2 = (requests_sent w + k + 1)%nat ∧
  table (fetch_and_save_data net w).2 = table w ∧
  last (stdout (fetch_and_save_data net w).2)
  = Some (match body r with
          | None => ErrorFetchFailed JSONDecodeError
          | Some _ => UnexpectedError AttributeError
          end).
Proof.
  intros Hk Hgo Hr Hs Hb. rewrite fetch_and_save_data_loop.
  destruct (loop_reaches_attempt net w k Hk Hgo) as (rest & w' & -> & Ht & Hn).
  simpl for_in. unfold bind.
  rewrite (attempt_200_bad_body net _ w' r) by (rewrite ?Hn; done).
  simpl. rewrite Ht, Hn, last_snoc.
  split_and!; [done|lia|done|]. by destruct (body r).
Qed.

Lemma bad_body_ends_tick_witness :
  (fetch_and_save_data (always_200 body_array) (fresh 0)).1 = inr None ∧
  requests_sent (fetch_and_save_data (always_200 body_array) (fresh 0)).2 = 1%nat ∧
  table (fetch_and_save_data (always_200 body_array) (fresh 0)).2 = [] ∧
  last (stdout (fetch_and_save_data (always_200 body_array) (fresh 0)).2)
  = Some (UnexpectedError AttributeError).
Proof.
  apply (bad_body_ends_tick (always_200 body_array) (fresh 0) 0
           (mkResponse 200 (Some body_array))).
  - lia.
  - intros j Hj. lia.
  - reflexivity.
  - reflexivity.
  - intros m Hm. discriminate Hm.
Defined.

(** X7.  When a 200 answer is an object whose ['data'] entry is missing or
    falsy (null, false, 0, an empty string, list or object), the call returns
    [None] after that attempt, leaves the table as it was, and its last
    printed line is the warning about the data structure. *)
Theorem falsy_data_is_skipped net w (k : nat) r m :
  (k < 3)%nat →
  (∀ j, (j < k)%nat → goes_on net (requests_sent w + j)%nat) →
  net (requests_sent w + k)%nat = Answer r →
  status_code r = 200 →
  body r = Some (JObj m) →
  Py.truthy (default JNull (m !! "data")) = false →
  (fetch_and_save_data net w).1 = inr None ∧
  requests_sent (fetch_and_save_data net w).2 = (requests_sent w + k + 1)%nat ∧
  table (fetch_and_save_data net w).2 = table w ∧
  last (stdout (fetch_and_save_data net w).2) = Some WarningUnexpectedStructure.
Proof.
  intros Hk Hgo Hr Hs Hb Hd. rewrite fetch_and_save_data_loop.
  destruct (loop_reaches_attempt net w k Hk Hgo) as (rest & w' & -> & Ht & Hn).
  simpl for_in. unfold bind.
  rewrite (attempt_200_falsy_data net _ w' r m) by (rewrite ?Hn; done).
  simpl. rewrite Ht, Hn, last_snoc. split_and!; [done|lia|done|done].
Qed.

Lemma falsy_data_is_skipped_witness :
  (fetch_and_save_data (always_200 body_null_data) (fresh 0)).1 = inr None ∧
  requests_sent (fetch_and_save_data (always_200 body_null_data) (fresh 0)).2
  = 1%nat ∧
  table (fetch_and_save_data (always_200 body_null_data) (fresh 0)).2 = [] ∧
  last (stdout (fetch_and_save_data (always_200 body_null_data) (fresh 0)).2)
  = Some WarningUnexpectedStructure.
Proof.
  apply (falsy_data_is_skipped (always_200 body_null_data) (fresh 0) 0
           (mkResponse 200 (Some body_null_data))
           ({[ "data" := JNull ]} : gmap string json)).
  - lia.
  - intros j Hj. lia.
  - reflexivity.
  - reflexivity.
  - reflexivity.
  - reflexivity.
Defined.

(** X8.  When the first record of a 200 answer has ['playing'] set to null,
    the NOT NULL column refuses the row: nothing is appended, the call returns
    [None] and its last printed line reports an unexpected error. *)
Theorem null_count_is_not_stored net w (k : nat) r m g rest :
  (k < 3)%nat →
  (∀ j, (j < k)%nat → goes_on net (requests_sent w + j)%nat) →
  net (requests_sent w + k)%nat = Answer r →
  status_code r = 200 →
  body r = Some (JObj m) →
  m !! "data" = Some (JArr (JObj g :: rest)) →
  g !! "playing" = Some JNull →
  (fetch_and_save_data net w).1 = inr None ∧
  requests_sent (fetch_and_save_data net w).2 = (requests_sent w + k + 1)%nat ∧
  table (fetch_and_save_data net w).2 = table w ∧
  last (stdout (fetch_and_save_data net w).2)
  = Some (UnexpectedError IntegrityError).
Proof.
  intros Hk Hgo Hr Hs Hb Hd Hg. rewrite fetch_and_save_data_loop.
  destruct (loop_reaches_attempt net w k Hk Hgo) as (rest' & w' & -> & Ht & Hn).
  simpl for_in. unfold bind.
  rewrite (attempt_200_first_record net _ w' r m g rest) by (rewrite ?Hn; done).
  rewrite Hg. simpl. rewrite Ht, Hn, last_snoc. split_and!; [done|lia|done|done].
Qed.

Lemma null_count_is_not_stored_witness :
  (fetch_and_save_data (always_200 body_null_playing) (fresh 0)).1 = inr None ∧
  requests_sent (fetch_and_save_data (always_200 body_null_playing) (fresh 0)).2
  = 1%nat ∧
  table (fetch_and_save_data (always_200 body_null_playing) (fresh 0)).2 = [] ∧
  last (stdout (fetch_and_save_data (always_200 body_null_playing) (fresh 0)).2)
  = Some (UnexpectedError IntegrityError).
Proof.
  apply (null_count_is_not_stored (always_200 body_null_playing) (fresh 0) 0
           (mkResponse 200 (Some body_null_playing))
           ({[ "data" := JArr [JObj {[ "playing" := JNull ]}] ]}
              : gmap string json)
           ({[ "playing" := JNull ]} : gmap string json) []).
  - lia.
  - intros j Hj. lia.
  - reflexivity.
  - reflexivity.
  - reflexivity.
  - reflexivity.
  - reflexivity.
Defined.

(** ** Runs that use up the three attempts *)



(** X10.  When all three attempts are answered with statuses that are
    neither 200, nor 429, nor errors (204 for one), the call retries at once,
    without sleeping, and gives up after the third without a word: it returns
    [None], and only the request count and the opening line have changed. *)
Theorem other_statuses_retry_at_once net w :
  (∀ j, (j < 3)%nat → passes_silently net (requests_sent w + j)%nat) →
  fetch_and_save_data net w
  = (inr None,
     World (table w) (utcnow w) (requests_sent w + 3)%nat (slept w)
           (stdout w ++ [Attempting])).
Proof.
  intros H. rewrite fetch_and_save_data_loop.
  change (range max_retries) with [0; 1; 2].
  destruct (H 0%nat ltac:(lia)) as (r0 & Hr0 & ? & ? & ?).
  destruct (H 1%nat ltac:(lia)) as (r1 & Hr1 & ? & ? & ?).
  destruct (H 2%nat ltac:(lia)) as (r2 & Hr2 & ? & ? & ?).
  rewrite Nat.add_0_r in Hr0.
  simpl for_in. unfold bind.
  rewrite (attempt_other_status net 0 (announced w) r0) by done.
  rewrite (attempt_other_status net 1 (requested (announced w)) r1)
    by (simpl; rewrite <- ?Hr1; try done; f_equal; lia).
  rewrite (attempt_other_status net 2 (requested (requested (announced w))) r2)
    by (simpl; rewrite <- ?Hr2; try done; f_equal; lia).
  unfold ret, requested. simpl. do 3 f_equal. lia.
Qed.

Lemma other_statuses_retry_at_once_witness :
  fetch_and_save_data (always_status 204) (fresh 0)
  = (inr None, World [] 0 3 [] [Attempting]).
Proof.
  apply (other_statuses_retry_at_once (always_status 204) (fresh 0)).
  intros j _. exists (mkResponse 204 None). unfold error_status. simpl.
  split_and!; [reflexivity|lia|lia|lia].
Defined.

(** * Further properties of the table *)

(** ** Primary keys *)

Lemma next_id_in_order rows :
  ids_in_order rows → Query.next_id rows = Z.of_nat (length rows) + 1.
Proof.
  intros Hids. unfold Query.next_id.
  destruct (foldr_max_bounds 0 (id <$> rows)) as (Hin & H0 & Hall).
  assert (Hhi : foldr Z.max 0 (id <$> rows) ≤ Z.of_nat (length rows)).
  { destruct Hin as [->|Hin]; [lia|].
    apply list_elem_of_fmap in Hin as (e & -> & He).
    apply list_elem_of_lookup in He as (i & Hi).
    rewrite (Hids i e Hi). apply lookup_lt_Some in Hi. lia. }
  assert (Hlo : Z.of_nat (length rows) ≤ foldr Z.max 0 (id <$> rows)).
  { destruct (decide (length rows = 0%nat)) as [->|Hne]; [done|].
    destruct (lookup_lt_is_Some_2 rows (length rows - 1)) as [e He]; [lia|].
    specialize (Hall (id e)). rewrite (Hids _ e He) in Hall.
    transitivity (Z.of_nat (length rows - 1) + 1); [lia|].
    apply Hall. rewrite <- (Hids _ e He). apply list_elem_of_fmap.
    exists e. split; [done|]. by apply list_elem_of_lookup_2 in He. }
  lia.
Qed.

Lemma fetch_and_save_data_ids_in_order net w :
  ids_in_order (table w) → ids_in_order (table (fetch_and_save_data net w).2).
Proof.
  intros Hids.
  destruct (fetch_and_save_data_effect net w) as (v & w' & -> & _ & _ & Ht).
  simpl. destruct v as [c|]; [|by rewrite Ht].
  destruct Ht as (n & _ & ->). rewrite next_id_in_order by done.
  intros i e Hi. apply lookup_app_Some in Hi as [Hi|[Hlen Hi]]; [by apply Hids|].
  apply list_lookup_singleton_Some in Hi as [Hi <-]. simpl. lia.
Qed.

(** X11.  In every table the ticks can produce, the [i]-th row inserted has
    primary key [i + 1]: keys are distinct and increase with insertion. *)
Theorem reachable_ids_in_order rows :
  reachable rows →
  ∀ (i : nat) e, rows !! i = Some e → id e = Z.of_nat i + 1.
Proof.
  intros Hreach. change (ids_in_order rows).
  induction Hreach as [|net w _ _ IH]; [by intros i e ?|].
  by apply fetch_and_save_data_ids_in_order.
Qed.

Lemma reachable_ids_in_order_witness :
  id (Entry 2 0 42) = Z.of_nat 1 + 1.
Proof.
  apply (reachable_ids_in_order [Entry 1 0 42; Entry 2 0 42]).
  - change [Entry 1 0 42; Entry 2 0 42]
      with (table (job_wrapper (always_200 (body_playing (JNum 42)))
                     (job_wrapper (always_200 (body_playing (JNum 42)))
                                  (fresh 0)).2).2).
    apply reach_tick; [exact I|].
    apply reach_tick; [exact I|apply reach_create_all].
  - reflexivity.
Defined.

(** * Further properties of the read views *)

Lemma latest_entry_elem_of rows e :
  latest_entry rows = Some e →
  e ∈ rows ∧ ∀ e', e' ∈ rows → timestamp e' ≤ timestamp e.
Proof.
  intros He. destruct rows as [|x rows]; [done|].
  destruct (latest_entry_newest (x :: rows)) as (e' & He' & Hin & Hmax); [done|].
  rewrite He in He'. by simplify_eq.
Qed.


(** ** From the fetcher to the summary *)



(** ** The two views side by side *)

Lemma elem_of_entries_24h now rows e :
  e ∈ entries_24h now rows ↔ now - datetime.hours 24 ≤ timestamp e ∧ e ∈ rows.
Proof.
  unfold entries_24h, Query.order_by_asc.
  rewrite merge_sort_Permutation. apply elem_of_filter_since.
Qed.

Lemma elem_of_historical_data now rows x :
  x ∈ data (get_historical_data now rows) ↔
  ∃ e, e ∈ rows ∧ now - datetime.hours 24 ≤ timestamp e ∧ player_count e = x.
Proof.
  rewrite get_historical_data_columns. simpl. rewrite list_elem_of_fmap.
  split.
  - intros (e & -> & He). apply elem_of_entries_24h in He as [Hs He]. by exists e.
  - intros (e & He & Hs & <-). exists e. split; [done|].
    by apply elem_of_entries_24h.
Qed.

(** X13.  Asked at the same moment, the two views agree: no item of the
    series exceeds [max_players_24h]; when the series is not empty
    [max_players_24h] is one of its items; when it is empty
    [max_players_24h] is 0. *)
Theorem peak_is_maximum_of_series now rows :
  (∀ x, x ∈ data (get_historical_data now rows) →
        x ≤ max_players_24h (get_summary now rows)) ∧
  (data (get_historical_data now rows) ≠ [] →
   max_players_24h (get_summary now rows) ∈ data (get_historical_data now rows)) ∧
  (data (get_historical_data now rows) = [] →
   max_players_24h (get_summary now rows) = 0).
Proof.
  destruct (max_in_window now rows) as [Hsome Hnone]. simpl in *. split_and!.
  - intros x (e & He & Hs & <-)%elem_of_historical_data.
    destruct Hsome as [_ Hall]; [by exists e|]. by apply Hall.
  - intros Hne.
    destruct (data (get_historical_data now rows)) as [|x l] eqn:Hd; [done|].
    assert (Hx : x ∈ data (get_historical_data now rows))
      by (rewrite Hd; by left).
    apply elem_of_historical_data in Hx as (e & He & Hs & _).
    destruct Hsome as [(e' & He' & Hs' & ->) _]; [by exists e|].
    rewrite <- Hd. apply elem_of_historical_data. by exists e'.
  - intros Hd. apply Hnone. intros e He.
    destruct (decide (timestamp e < now - datetime.hours 24)) as [|Hn]; [done|].
    assert (Hx : player_count e ∈ data (get_historical_data now rows)).
    { apply elem_of_historical_data. exists e. split_and!; [done|lia|done]. }
    rewrite Hd in Hx. by apply elem_of_nil in Hx.
Qed.

Lemma peak_is_maximum_of_series_witness :
  max_players_24h
    (get_summary (datetime.hours 30)
       [Entry 1 0 99; Entry 2 (datetime.hours 7) 5; Entry 3 (datetime.hours 8) 3])
  ∈ data (get_historical_data (datetime.hours 30)
            [Entry 1 0 99; Entry 2 (datetime.hours 7) 5;
             Entry 3 (datetime.hours 8) 3]).
Proof.
  apply (peak_is_maximum_of_series (datetime.hours 30)
           [Entry 1 0 99; Entry 2 (datetime.hours 7) 5;
            Entry 3 (datetime.hours 8) 3]).
  vm_compute. discriminate.
Defined.

(** X14.  When the latest entry lies in the 24-hour window,
    [current_players] is at most [max_players_24h]. *)
Theorem current_at_most_peak now rows e :
  latest_entry rows = Some e →
  now - datetime.hours 24 ≤ timestamp e →
  current_players (get_summary now rows) ≤ max_players_24h (get_summary now rows).
Proof.
  intros He Hs. destruct (latest_entry_elem_of rows e He) as [Hin _].
  destruct (max_in_window now rows) as [Hsome _]. simpl in Hsome.
  destruct Hsome as [_ Hall]; [by exists e|].
  unfold get_summary at 1. simpl. rewrite He. by apply Hall.
Qed.

Lemma current_at_most_peak_witness :
  current_players
    (get_summary (datetime.hours 30)
       [Entry 1 (datetime.hours 7) 5; Entry 2 (datetime.hours 8) 3])
  ≤ max_players_24h
      (get_summary (datetime.hours 30)
         [Entry 1 (datetime.hours 7) 5; Entry 2 (datetime.hours 8) 3]).
Proof.
  apply (current_at_most_peak (datetime.hours 30)
           [Entry 1 (datetime.hours 7) 5; Entry 2 (datetime.hours 8) 3]
           (Entry 2 (datetime.hours 8) 3)).
  - vm_compute. reflexivity.
  - vm_compute. discriminate.
Defined.

(** ** The edges of the window *)

Lemma strftime_HM_day_before t :
  datetime.strftime_HM (t - datetime.hours 24) = datetime.strftime_HM t.
Proof.
  unfold datetime.strftime_HM.
  assert (Hh : datetime.hour (t - datetime.hours 24) = datetime.hour t).
  { unfold datetime.hour, datetime.hours, datetime.HOUR, datetime.MINUTE,
      datetime.SECOND. Z.div_mod_to_equations. lia. }
  assert (Hm : datetime.minute (t - datetime.hours 24) = datetime.minute t).
  { unfold datetime.minute, datetime.hours, datetime.HOUR, datetime.MINUTE,
      datetime.SECOND. Z.div_mod_to_equations. lia. }
  by rewrite Hh, Hm.
Qed.

(** X15.  The cutoff is inclusive and the label drops the date: a row stamped
    exactly 24 hours before the query is in the series, and its label is the
    hour and minute of the query itself. *)
Theorem row_at_cutoff_is_listed now rows e :
  e ∈ rows →
  timestamp e = now - datetime.hours 24 →
  ∃ i : nat,
    data (get_historical_data now rows) !! i = Some (player_count e) ∧
    labels (get_historical_data now rows) !! i
    = Some (datetime.strftime_HM now).
Proof.
  intros He Ht.
  assert (Hin : e ∈ entries_24h now rows).
  { apply elem_of_entries_24h. split; [lia|done]. }
  apply list_elem_of_lookup in Hin as (i & Hi). exists i.
  rewrite get_historical_data_columns. simpl.
  rewrite !list_lookup_fmap, Hi. simpl.
  by rewrite Ht, strftime_HM_day_before.
Qed.

Lemma row_at_cutoff_is_listed_witness :
  ∃ i : nat,
    data (get_historical_data (datetime.hours 30)
            [Entry 1 (datetime.hours 6) 8; Entry 2 (datetime.hours 30) 9]) !! i
    = Some (player_count (Entry 1 (datetime.hours 6) 8)) ∧
    labels (get_historical_data (datetime.hours 30)
              [Entry 1 (datetime.hours 6) 8; Entry 2 (datetime.hours 30) 9]) !! i
    = Some (datetime.strftime_HM (datetime.hours 30)).
Proof.
  apply (row_at_cutoff_is_listed (datetime.hours 30)
           [Entry 1 (datetime.hours 6) 8; Entry 2 (datetime.hours 30) 9]
           (Entry 1 (datetime.hours 6) 8)).
  - left.
  - reflexivity.
Defined.

(** X16.  The series is empty exactly when every row is older than 24
    hours; [labels] is then empty as well. *)
Theorem series_empty_iff_all_stale now rows :
  (data (get_historical_data now rows) = [] ↔
   ∀ e, e ∈ rows → timestamp e < now - datetime.hours 24) ∧
  (data (get_historical_data now rows) = [] →
   labels (get_historical_data now rows) = []).
Proof.
  rewrite get_historical_data_columns. simpl. split; [split|].
  - intros Hd e He.
    destruct (decide (timestamp e < now - datetime.hours 24)) as [|Hn]; [done|].
    assert (Hin : e ∈ entries_24h now rows).
    { apply elem_of_entries_24h. split; [lia|done]. }
    apply fmap_nil_inv in Hd. rewrite Hd in Hin. by apply elem_of_nil in Hin.
  - intros Hold. destruct (entries_24h now rows) as [|e l] eqn:Hd; [done|].
    assert (Hin : e ∈ entries_24h now rows) by (rewrite Hd; by left).
    apply elem_of_entries_24h in Hin as [Hs He]. specialize (Hold e He). lia.
  - intros Hd. apply fmap_nil_inv in Hd. by rewrite Hd.
Qed.

Lemma series_empty_iff_all_stale_witness :
  data (get_historical_data (datetime.hours 48)
          [Entry 1 0 50; Entry 2 (datetime.hours 1) 70]) = [].
Proof.
  apply (series_empty_iff_all_stale (datetime.hours 48)
           [Entry 1 0 50; Entry 2 (datetime.hours 1) 70]).
  intros e He.
  apply elem_of_cons in He as [->|He]; [vm_compute; reflexivity|].
  apply elem_of_cons in He as [->|He]; [vm_compute; reflexivity|].
  by apply elem_of_nil in He.
Defined.

(** ** Non-negative counts, seen through the views *)

Lemma reachable_counts_ok rows :
  reachable_under upstream_counts_nonneg rows → counts_ok rows.
Proof.
  induction 1 as [|net w Hnet _ IH]; [constructor|].
  by apply fetch_and_save_data_counts_ok.
Qed.

(** X17.  For a table produced by ticks against an upstream whose
    ['playing'] values are non-negative integers, neither field of the
    summary nor any item of the series is negative. *)
Theorem views_are_nonneg now rows :
  reachable_under upstream_counts_nonneg rows →
  0 ≤ current_players (get_summary now rows) ∧
  0 ≤ max_players_24h (get_summary now rows) ∧
  ∀ x, x ∈ data (get_historical_data now rows) → 0 ≤ x.
Proof.
  intros Hok%reachable_counts_ok. unfold counts_ok in Hok.
  rewrite Forall_forall in Hok. split_and!.
  - unfold get_summary. simpl.
    destruct (latest_entry rows) as [e|] eqn:He; [|done].
    apply Hok. by apply latest_entry_elem_of.
  - unfold get_summary. simpl.
    destruct (Query.scalar_max _) as [v|] eqn:Hmax; [|done].
    rewrite or_0_Some. apply scalar_max_Some in Hmax as [Hin _].
    apply list_elem_of_fmap in Hin as (e & -> & He).
    apply elem_of_filter_since in He as [_ He]. by apply Hok.
  - intros x (e & He & _ & <-)%elem_of_historical_data. by apply Hok.
Qed.

Lemma views_are_nonneg_witness :
  0 ≤ current_players (get_summary 100 [Entry 1 0 42]) ∧
  0 ≤ max_players_24h (get_summary 100 [Entry 1 0 42]) ∧
  ∀ x, x ∈ data (get_historical_data 100 [Entry 1 0 42]) → 0 ≤ x.
Proof.
  apply (views_are_nonneg 100 [Entry 1 0 42]).
  change [Entry 1 0 42]
    with (table (job_wrapper (always_200 (body_playing (JNum 42))) (fresh 0)).2).
  apply reach_tick; [|apply reach_create_all].
  intros n r v Hr Hv m g rest c Hm Hd Hc.
  unfold always_200 in Hr. injection Hr as <-. simpl in Hv.
  injection Hv as <-. unfold body_playing in Hm. injection Hm as <-.
  rewrite lookup_singleton_eq in Hd. injection Hd as <- <-.
  rewrite lookup_singleton_eq in Hc. injection Hc as <-.
  exists 42. split; [reflexivity|lia].
Defined.
